(** * symmeplot: the plot-object tree, the 3D circle artist and the scene

    A shallow embedding of

    - [symmeplot/plot_base.py]   (class [PlotBase]),
    - [symmeplot/plot_artists.py] (class [Circle3D]),
    - [src/symmeplot/matplotlib/scene.py] (class [Scene3D]),

    followed by the properties of these classes.

    Conventions.  A Python object that is mutated in place is a record that
    the operation takes and returns; an operation that can raise returns an
    [outcome]: the state reached together with the exception raised, if any
    (the mutations done before a [raise] stay visible, as in Python).
    Objects compared by identity (sympy [Point], [ReferenceFrame]) are object
    identifiers.  A [float64] is idealised as a real number. *)

From Stdlib Require Import String Bool Arith ZArith Lia Reals Lra List.
Import ListNotations.

Set Implicit Arguments.
#[local] Set Warnings "-register-all".

(** ** Python values and exceptions *)

(** The exceptions raised by the modelled code. *)
Inductive exn : Type :=
| TypeError
| NotImplementedError
| IndexError
| AttributeError.

(** State reached, and the exception that interrupted the call (if any). *)
Definition outcome (S : Type) : Type := (S * option exn)%type.

Definition raised {S : Type} (o : outcome S) : option exn := snd o.
Definition state_of {S : Type} (o : outcome S) : S := fst o.

(** Objects handed to the attribute setters.  [PyPoint] and [PyFrame] carry
    the identity of a sympy [Point] / [ReferenceFrame]: neither class defines
    [__eq__], so [==] and [!=] on them compare identities. *)
Inductive pyobj : Type :=
| PyNone
| PyBool (b : bool)
| PyInt (z : Z)
| PyStr (s : string)
| PyPoint (p : nat)
| PyFrame (f : nat).

(** [bool(x)] *)
Definition py_bool (x : pyobj) : bool :=
  match x with
  | PyNone => false
  | PyBool b => b
  | PyInt z => negb (Z.eqb z 0)
  | PyStr s => negb (String.eqb s EmptyString)
  | PyPoint _ => true
  | PyFrame _ => true
  end.

(** [x != p] where [p] is a stored [Point] *)
Definition py_ne_point (x : pyobj) (p : nat) : bool :=
  match x with
  | PyPoint q => negb (Nat.eqb q p)
  | _ => true
  end.

(** [x == s] where [s] is a string literal *)
Definition py_eq_str (x : pyobj) (s : string) : bool :=
  match x with
  | PyStr t => String.eqb t s
  | _ => false
  end.

(** A symbolic expression, by its text. *)
Definition Expr : Type := string.

(** The nested sequences exchanged with the evaluator: floats, expressions
    and lists of these.  Only a list can be subscripted. *)
Inductive value : Type :=
| VFloat (x : R)
| VExpr (e : Expr)
| VList (l : list value).

(** The nesting of a value, its leaves forgotten. *)
Inductive shape : Type :=
| SLeaf
| SList (l : list shape).

Fixpoint shape_of (v : value) : shape :=
  match v with
  | VList l => SList (map shape_of l)
  | _ => SLeaf
  end.

(** ** Loops over the children *)

Section Loops.
Variables A B : Type.

(** [for child in children: f(child)], interrupted by the first raise. *)
Definition for_each (f : A -> outcome A) : list A -> outcome (list A) :=
  fix go (l : list A) : outcome (list A) :=
    match l with
    | [] => ([], None)
    | c :: r =>
        let (c', e) := f c in
        match e with
        | Some x => (c' :: r, Some x)
        | None => let (r', e') := go r in (c' :: r', e')
        end
    end.

(** [for child, w in zip(children, ws): f(child, w)]: stops at the end of
    the shorter sequence, or at the first raise. *)
Definition for_zip (f : A -> B -> outcome A) : list A -> list B -> outcome (list A) :=
  fix go (l : list A) (ws : list B) : outcome (list A) :=
    match l, ws with
    | c :: r, w :: ws' =>
        let (c', e) := f c w in
        match e with
        | Some x => (c' :: r, Some x)
        | None => let (r', e') := go r ws' in (c' :: r', e')
        end
    | _, _ => (l, None)
    end.
End Loops.

(** ** [plot_base.py] *)

Module plot_base.

(** An instance of [PlotBase].  [None] in [_inertial_frame] or [_zero_point]
    is the attribute not being there yet ([hasattr] false).
    [_get_expressions_to_evaluate_self] is what the abstract method of that
    name returns for this object.  The attributes [_origin], [_name] and
    [_artists], which the operations below neither read nor write, are left
    out. *)
Inductive PlotBase : Type := mkPlotBase {
  _children : list PlotBase;
  _inertial_frame : option nat;
  _zero_point : option nat;
  _visible : bool;
  _values : value;
  _get_expressions_to_evaluate_self : value
}.

Definition with_children (cs : list PlotBase) (self : PlotBase) : PlotBase :=
  mkPlotBase cs (_inertial_frame self) (_zero_point self) (_visible self)
    (_values self) (_get_expressions_to_evaluate_self self).

Definition with_inertial_frame (f : nat) (self : PlotBase) : PlotBase :=
  mkPlotBase (_children self) (Some f) (_zero_point self) (_visible self)
    (_values self) (_get_expressions_to_evaluate_self self).

Definition with_zero_point (p : nat) (self : PlotBase) : PlotBase :=
  mkPlotBase (_children self) (_inertial_frame self) (Some p) (_visible self)
    (_values self) (_get_expressions_to_evaluate_self self).

Definition with_visible (b : bool) (self : PlotBase) : PlotBase :=
  mkPlotBase (_children self) (_inertial_frame self) (_zero_point self) b
    (_values self) (_get_expressions_to_evaluate_self self).

Definition with_values (v : value) (self : PlotBase) : PlotBase :=
  mkPlotBase (_children self) (_inertial_frame self) (_zero_point self)
    (_visible self) v (_get_expressions_to_evaluate_self self).

(** [children] property *)
Definition children (self : PlotBase) : list PlotBase := _children self.

(** [inertial_frame.setter] *)
Fixpoint set_inertial_frame (new_inertial_frame : pyobj) (self : PlotBase)
  : outcome PlotBase :=
  match new_inertial_frame with
  | PyFrame f =>
      match _inertial_frame self with
      | Some _ => (self, Some NotImplementedError)
      | None =>
          let (cs, e) :=
            for_each (set_inertial_frame new_inertial_frame) (_children self) in
          match e with
          | Some x => (with_children cs self, Some x)
          | None => (with_inertial_frame f (with_children cs self), None)
          end
      end
  | _ => (self, Some TypeError)
  end.

(** [hasattr(self, '_zero_point') and new_zero_point != self._zero_point] *)
Definition zero_point_conflict (new_zero_point : pyobj) (self : PlotBase) : bool :=
  match _zero_point self with
  | Some p => py_ne_point new_zero_point p
  | None => false
  end.

(** [zero_point.setter] *)
Fixpoint set_zero_point (new_zero_point : pyobj) (self : PlotBase)
  : outcome PlotBase :=
  if zero_point_conflict new_zero_point self
  then (self, Some NotImplementedError)
  else
    match new_zero_point with
    | PyPoint p =>
        let (cs, e) :=
          for_each (set_zero_point new_zero_point) (_children self) in
        match e with
        | Some x => (with_children cs self, Some x)
        | None => (with_zero_point p (with_children cs self), None)
        end
    | _ => (self, Some TypeError)
    end.

(** [visible] property and [visible.setter]: the loop writes the attribute
    [_visible] of each child. *)
Definition visible (self : PlotBase) : bool := _visible self.

Definition set_visible (is_visible : pyobj) (self : PlotBase) : PlotBase :=
  with_visible (py_bool is_visible)
    (with_children
       (map (with_visible (py_bool is_visible)) (_children self)) self).

(** [values] property *)
Fixpoint values (self : PlotBase) : value :=
  VList (_values self :: map values (_children self)).

(** [values.setter] *)
Fixpoint set_values (self : PlotBase) (vals : value) : outcome PlotBase :=
  match vals with
  | VList (v0 :: rest) =>
      let (cs, e) := for_zip set_values (_children self) rest in
      (with_children cs (with_values v0 self), e)
  | VList [] => (self, Some IndexError)
  | _ => (self, Some TypeError)
  end.

(** [get_expressions_to_evaluate] *)
Fixpoint get_expressions_to_evaluate (self : PlotBase) : value :=
  VList (_get_expressions_to_evaluate_self self
           :: map get_expressions_to_evaluate (_children self)).

(** [tree_zero_point_is p self]: every object of the tree holds the zero
    point [p], which is how the setter leaves a tree. *)
Fixpoint tree_zero_point_is (p : nat) (self : PlotBase) : bool :=
  match _zero_point self with
  | Some q => Nat.eqb q p
  | None => false
  end && forallb (tree_zero_point_is p) (_children self).

(** All the objects below [self], in tree order. *)
Fixpoint descendants (self : PlotBase) : list PlotBase :=
  flat_map (fun c => c :: descendants c) (_children self).

(** Number of levels of the tree: 1 for an object without children. *)
Fixpoint depth (self : PlotBase) : nat :=
  S (fold_right Nat.max 0 (map depth (_children self))).

(** Induction over the tree of plot objects. *)
Section PlotBase_tree_ind.
Variable P : PlotBase -> Prop.
Hypothesis node :
  forall cs f z b v e, Forall P cs -> P (mkPlotBase cs f z b v e).

Fixpoint PlotBase_tree_ind (self : PlotBase) : P self :=
  match self with
  | mkPlotBase cs f z b v e =>
      node f z b v e
        ((fix all (l : list PlotBase) : Forall P l :=
            match l with
            | [] => Forall_nil P
            | c :: r => Forall_cons c (PlotBase_tree_ind c) (all r)
            end) cs)
  end.
End PlotBase_tree_ind.

(** *** States of a tree with respect to the two write-once attributes *)

(** No object of the tree has an inertial frame yet. *)
Fixpoint tree_without_inertial_frame (self : PlotBase) : bool :=
  match _inertial_frame self with
  | Some _ => false
  | None => true
  end && forallb tree_without_inertial_frame (_children self).

(** Every object of the tree holds the inertial frame [f]. *)
Fixpoint tree_inertial_frame_is (f : nat) (self : PlotBase) : bool :=
  match _inertial_frame self with
  | Some g => Nat.eqb g f
  | None => false
  end && forallb (tree_inertial_frame_is f) (_children self).

(** No object of the tree holds a zero point other than [p]: each one has
    none yet, or holds [p]. *)
Fixpoint tree_admits_zero_point (p : nat) (self : PlotBase) : bool :=
  match _zero_point self with
  | Some q => Nat.eqb q p
  | None => true
  end && forallb (tree_admits_zero_point p) (_children self).

(** *** A small tree: a body with a frame (carrying one axis vector) and
    a mass centre, in the inertial frame 1 and with the zero point 2,
    before any evaluation. *)

Definition new_object (cs : list PlotBase) (exprs : list Expr) : PlotBase :=
  mkPlotBase cs (Some 1%nat) (Some 2%nat) true (VList []) (VList (map VExpr exprs)).

Definition axis_x : PlotBase := new_object [] ["ox"; "oy"; "oz"; "vx"; "vy"; "vz"]%string.
Definition frame_A : PlotBase := new_object [axis_x] ["a"]%string.
Definition masscenter : PlotBase := new_object [] ["px"; "py"; "pz"]%string.
Definition body_B : PlotBase := new_object [frame_A; masscenter] [].

(** The same tree while [__init__] has not assigned the frame and the
    point yet, an object holding the zero point 2 above a child that has
    none yet, and a tree whose child was built with another zero point. *)
Definition unassigned (cs : list PlotBase) : PlotBase :=
  mkPlotBase cs None None true (VList []) (VList []).


Definition other_zero_point : PlotBase :=
  mkPlotBase [mkPlotBase [] (Some 1%nat) (Some 3%nat) true (VList []) (VList [])]
    (Some 1%nat) (Some 2%nat) true (VList []) (VList []).

(** A values tree for [body_B] (its own values, then the subtrees of the
    frame and of the mass centre), one with the subtrees of the children
    missing, and one with a subtree too many. *)
Definition body_B_subtrees : list value :=
  [VList [VList [VFloat 9]; VList [VList (map VFloat [0; 0; 0; 1; 0; 0])]];
   VList [VList (map VFloat [1; 2; 3])]]%R.

Definition body_B_values : value := VList (VList [] :: body_B_subtrees).

Definition too_few_values : value := VList [VList []].

Definition too_many_values : value :=
  VList (VList [] :: body_B_subtrees ++ [VList [VList [VFloat 4%R]]]).

End plot_base.

(** ** [plot_artists.py]: [Circle3D] *)

Module plot_artists.
Local Open Scope R_scope.

(** A 3-component array and a 3x3 array (by rows). *)
Definition vec3 : Type := (R * R * R)%type.
Definition mat3 : Type := (vec3 * vec3 * vec3)%type.

(** [np.linalg.norm] of a 3-component array *)
Definition norm (v : vec3) : R :=
  let '(x, y, z) := v in sqrt (x * x + y * y + z * z).

(** [v / s] and [v /= s] *)
Definition vdiv (v : vec3) (s : R) : vec3 :=
  let '(x, y, z) := v in (x / s, y / s, z / s).

(** [np.cross] *)
Definition cross (a b : vec3) : vec3 :=
  let '(a0, a1, a2) := a in
  let '(b0, b1, b2) := b in
  (a1 * b2 - a2 * b1, a2 * b0 - a0 * b2, a0 * b1 - a1 * b0).

(** [np.identity(3)], [np.eye(3)] *)
Definition identity3 : mat3 := ((1, 0, 0), (0, 1, 0), (0, 0, 1)).

(** [np.outer] *)
Definition outer (a b : vec3) : mat3 :=
  let '(a0, a1, a2) := a in
  let '(b0, b1, b2) := b in
  ((a0 * b0, a0 * b1, a0 * b2),
   (a1 * b0, a1 * b1, a1 * b2),
   (a2 * b0, a2 * b1, a2 * b2)).

Definition vadd (a b : vec3) : vec3 :=
  let '(a0, a1, a2) := a in
  let '(b0, b1, b2) := b in (a0 + b0, a1 + b1, a2 + b2).

Definition vsub (a b : vec3) : vec3 :=
  let '(a0, a1, a2) := a in
  let '(b0, b1, b2) := b in (a0 - b0, a1 - b1, a2 - b2).

Definition vscale (k : R) (a : vec3) : vec3 :=
  let '(a0, a1, a2) := a in (k * a0, k * a1, k * a2).

(** Element-wise [A + B], [A - B] and [k * A] on 3x3 arrays *)
Definition madd (A B : mat3) : mat3 :=
  let '(r0, r1, r2) := A in
  let '(s0, s1, s2) := B in (vadd r0 s0, vadd r1 s1, vadd r2 s2).

Definition msub (A B : mat3) : mat3 :=
  let '(r0, r1, r2) := A in
  let '(s0, s1, s2) := B in (vsub r0 s0, vsub r1 s1, vsub r2 s2).

Definition mscale (k : R) (A : mat3) : mat3 :=
  let '(r0, r1, r2) := A in (vscale k r0, vscale k r1, vscale k r2).

Definition inner (a b : vec3) : R :=
  let '(a0, a1, a2) := a in
  let '(b0, b1, b2) := b in a0 * b0 + a1 * b1 + a2 * b2.

(** [np.dot(M, v)] *)
Definition dot (M : mat3) (v : vec3) : vec3 :=
  let '(r0, r1, r2) := M in (inner r0 v, inner r1 v, inner r2 v).

(** [Circle3D._rotation_matrix] *)
Definition _rotation_matrix (d : vec3) : mat3 :=
  let sin_angle := norm d in
  if Req_dec_T sin_angle 0 then identity3
  else
    let d := vdiv d sin_angle in
    let '(d0, d1, d2) := d in
    let eye := identity3 in
    let ddt := outer d d in
    let skew : mat3 := ((0, d2, - d1), (- d2, 0, d0), (d1, - d0, 0)) in
    madd (madd ddt (mscale (sqrt (1 - sin_angle ^ 2)) (msub eye ddt)))
         (mscale sin_angle skew).

(** [segment3d[:, i] += offset]; there is no column 3. *)
Definition add_to_column (i : nat) (offset : R) (segment3d : list vec3)
  : option (list vec3) :=
  match i with
  | 0%nat => Some (map (fun '(x, y, z) => (x + offset, y, z)) segment3d)
  | 1%nat => Some (map (fun '(x, y, z) => (x, y + offset, z)) segment3d)
  | 2%nat => Some (map (fun '(x, y, z) => (x, y, z + offset)) segment3d)
  | _ => None
  end.

(** [for i, offset in enumerate(center): segment3d[:, i] += offset],
    from index [i] on.  An array built from no vertex at all is
    one-dimensional, and indexing it with [[:, i]] raises. *)
Fixpoint add_offsets (i : nat) (center : list R) (segment3d : list vec3)
  : exn + list vec3 :=
  match center with
  | [] => inr segment3d
  | offset :: rest =>
      match segment3d with
      | [] => inl IndexError
      | _ :: _ =>
          match add_to_column i offset segment3d with
          | Some segment3d' => add_offsets (S i) rest segment3d'
          | None => inl IndexError
          end
      end
  end.

(** [Circle3D._get_segment3d]; [verts] is [path_2d.vertices], the path
    being matplotlib's. *)
Definition _get_segment3d (verts : list (R * R)) (center : list R)
  (normal : vec3) : exn + list vec3 :=
  let normal := vdiv normal (norm normal) in
  let d := cross normal (0, 0, 1) in
  let M := _rotation_matrix d in
  let segment3d := map (fun '(x, y) => dot M (x, y, 0)) verts in
  add_offsets 0 center segment3d.

End plot_artists.

(** ** [matplotlib/scene.py]: [Scene3D] *)

Module scene.
Import plot_artists.
Local Open Scope R_scope.

(** An artist of the scene, as [auto_zoom] sees it: what its [min()] and
    [max()] return. *)
Record Artist : Type := mkArtist {
  art_min : vec3;
  art_max : vec3
}.

(** A top-level plot object ([MplPlotBase], not part of this file's
    sources): its name and its [artists]. *)
Record MplPlotBase : Type := mkMplPlotBase {
  po_name : string;
  po_artists : list Artist
}.

(** Calls made on plot objects, whose effect lies outside [Scene3D]. *)
Inductive call : Type :=
| call_set_visible (plot_object : MplPlotBase) (arg : bool).

(** The axis limits of the 3D axes. *)
Record Axes3D : Type := mkAxes3D {
  xlim : R * R;
  ylim : R * R;
  zlim : R * R
}.

Definition set_xlim (lo hi : R) (ax : Axes3D) : Axes3D :=
  mkAxes3D (lo, hi) (ylim ax) (zlim ax).
Definition set_ylim (lo hi : R) (ax : Axes3D) : Axes3D :=
  mkAxes3D (xlim ax) (lo, hi) (zlim ax).
Definition set_zlim (lo hi : R) (ax : Axes3D) : Axes3D :=
  mkAxes3D (xlim ax) (ylim ax) (lo, hi).

(** A [Scene3D].  [called] records, oldest first, the calls made on plot
    objects. *)
Record Scene3D : Type := mkScene3D {
  _children : list MplPlotBase;
  _annot_location : option pyobj;
  _ax : Axes3D;
  called : list call
}.

(** Modelled from the spec: [SceneBase.artists], the read-only accessor of
    the base class of [Scene3D], which is not among the sources; the
    artists of the scene are those of its plot objects, in order (as
    [PlotBase.artists] gathers those of the children). *)
Definition artists (self : Scene3D) : list Artist :=
  flat_map po_artists (_children self).

(** [annot_location.setter] *)
Definition set_annot_location (new_annot_location : pyobj) (self : Scene3D)
  : outcome Scene3D :=
  if py_eq_str new_annot_location "object"
  then (mkScene3D (_children self) (Some new_annot_location) (_ax self)
          (called self), None)
  else (self, Some NotImplementedError).

(** The mode tested by [_update_annot]: [self.annot_location == mode]. *)
Definition annot_location_is (mode : string) (self : Scene3D) : bool :=
  match _annot_location self with
  | Some x => py_eq_str x mode
  | None => false
  end.

(** [np.min(rows, axis=0)] and [np.max(rows, axis=0)] of a non-empty list *)
Definition vmin (a b : vec3) : vec3 :=
  let '(a0, a1, a2) := a in
  let '(b0, b1, b2) := b in (Rmin a0 b0, Rmin a1 b1, Rmin a2 b2).

Definition vmax (a b : vec3) : vec3 :=
  let '(a0, a1, a2) := a in
  let '(b0, b1, b2) := b in (Rmax a0 b0, Rmax a1 b1, Rmax a2 b2).

(** Component-wise order on 3-component arrays. *)
Definition vle (a b : vec3) : Prop :=
  let '(a0, a1, a2) := a in
  let '(b0, b1, b2) := b in a0 <= b0 /\ a1 <= b1 /\ a2 <= b2.

(** The box from [lo] to [hi] lies within the limits of the axes. *)
Definition within_limits (ax : Axes3D) (lo hi : vec3) : Prop :=
  let '(l0, l1, l2) := lo in
  let '(h0, h1, h2) := hi in
  (fst (xlim ax) <= l0 /\ h0 <= snd (xlim ax))
  /\ (fst (ylim ax) <= l1 /\ h1 <= snd (ylim ax))
  /\ (fst (zlim ax) <= l2 /\ h2 <= snd (zlim ax)).

(** [auto_zoom]; the result is what the method returns, [None] for the
    bare [return]. *)
Definition auto_zoom (scale : R) (self : Scene3D)
  : Scene3D * option (vec3 * vec3) :=
  match artists self with
  | [] => (self, None)
  | a :: rest =>
      let _min := fold_left vmin (map art_min rest) (art_min a) in
      let _max := fold_left vmax (map art_max rest) (art_max a) in
      let '(w0, w1, w2) := vsub _max _min in
      let size := scale * Rmax (Rmax w0 w1) w2 in
      let '(e0, e1, e2) := ((size - w0) / 2, (size - w1) / 2, (size - w2) / 2) in
      let '(m0, m1, m2) := _min in
      let '(M0, M1, M2) := _max in
      (mkScene3D (_children self) (_annot_location self)
         (set_zlim (m2 - e2) (M2 + e2)
            (set_ylim (m1 - e1) (M1 + e1)
               (set_xlim (m0 - e0) (M0 + e0) (_ax self))))
         (called self),
       Some (_min, _max))
  end.

(** *** [clear] *)

Section Clear.
(** The plot objects of a scene belong to classes that are not among the
    sources, so what [plot_object.set_visible(False)] does is not known.
    [set_visible_raises plot_object] is the exception with which that call
    ends, [None] when it returns; it is [AttributeError] on a plot object
    whose class has no attribute [set_visible], as is the case of
    [PlotBase], which has the property [visible] and no such method. *)
Variable set_visible_raises : MplPlotBase -> option exn.

(** [for plot_object in self._children: plot_object.set_visible(False)],
    the calls that returned being recorded. *)
Fixpoint set_all_invisible (plot_objects : list MplPlotBase) (log : list call)
  : list call * option exn :=
  match plot_objects with
  | [] => (log, None)
  | plot_object :: rest =>
      match set_visible_raises plot_object with
      | Some x => (log, Some x)
      | None =>
          set_all_invisible rest (log ++ [call_set_visible plot_object false])
      end
  end.

(** [clear] *)
Definition clear (self : Scene3D) : outcome Scene3D :=
  let (called', e) := set_all_invisible (_children self) (called self) in
  match e with
  | Some x =>
      (mkScene3D (_children self) (_annot_location self) (_ax self) called',
       Some x)
  | None =>
      match _children self with
      | [] =>
          (mkScene3D (_children self) (_annot_location self) (_ax self)
             called',
           Some IndexError)
      | first :: _ =>
          (mkScene3D [first] (_annot_location self) (_ax self) called', None)
      end
  end.
End Clear.

(** *** [get_euler_angels] *)

(** [np.arctan2(y, x)] on real numbers: the angle of the point (x, y), in
    the interval from -pi (excluded) to pi; 0 at the origin. *)
Definition arctan2 (y x : R) : R :=
  if Rlt_dec 0 x then atan (y / x)
  else if Rlt_dec x 0
       then if Rle_dec 0 y then atan (y / x) + PI else atan (y / x) - PI
       else if Rlt_dec 0 y then PI / 2
            else if Rlt_dec y 0 then - (PI / 2)
                 else 0.

(** [np.arcsin] and [np.rad2deg] *)
Definition arcsin (x : R) : R := asin x.
Definition rad2deg (x : R) : R := x * (180 / PI).

(** The dictionary returned, by its keys. *)
Record EulerAngles : Type := mkEulerAngles {
  elev : R;
  azim : R;
  roll : R
}.

(** [get_euler_angels]; [direction_matrix] is the array made of
    [projection_frame.dcm(normal_frame)], a matrix that sympy computes. *)
Definition get_euler_angels (direction_matrix : mat3) : EulerAngles :=
  let '((m00, m01, m02), (m10, m11, m12), (m20, m21, m22)) :=
    direction_matrix in
  let azimuth := arctan2 m10 m00 in
  let elevation := arcsin (- m20) in
  let roll_angle := arctan2 m21 m22 in
  mkEulerAngles (rad2deg elevation) (rad2deg azimuth) (rad2deg roll_angle).

(** What sympy gives for [projection_frame.dcm(normal_frame)] when the
    projection frame is the normal frame turned by [theta] about its z axis
    ([projection_frame.orient_axis(normal_frame, normal_frame.z, theta)]):
    the rows are the unit vectors of the projection frame expressed in the
    normal frame. *)
Definition dcm_about_z (theta : R) : mat3 :=
  ((cos theta, sin theta, 0), (- sin theta, cos theta, 0), (0, 0, 1)).

(** The transposed matrix, [normal_frame.dcm(projection_frame)]. *)
Definition transpose (M : mat3) : mat3 :=
  let '((m00, m01, m02), (m10, m11, m12), (m20, m21, m22)) := M in
  ((m00, m10, m20), (m01, m11, m21), (m02, m12, m22)).

(** *** Hovering *)

(** The text artist [self.annot], with what [set_text], [set_position] and
    [set_visible] wrote last. *)
Record Text : Type := mkText {
  text : string;
  position : R * R;
  text_visible : bool
}.

(** A mouse event: whether [event.inaxes] is the axes of the scene, and
    the data coordinates of the pointer. *)
Record MouseEvent : Type := mkMouseEvent {
  inaxes_is_ax : bool;
  xdata : R;
  ydata : R
}.

(** A scene with its annotation and its canvas, of which the number of
    [draw_idle()] requests is kept. *)
Record Hovered : Type := mkHovered {
  the_scene : Scene3D;
  annot : Text;
  draw_idle_requests : nat
}.

Section Hover.
(** What lies with the plot objects and with matplotlib:
    [plot_object.contains(event)], [plot_object.annot_coords], the x and y
    that [proj_transform(..., self._ax.get_proj())] returns, and
    [self._ax.transData.transform]. *)
Variable contains : MplPlotBase -> MouseEvent -> bool.
Variable annot_coords : MplPlotBase -> vec3.
Variable proj_transform : vec3 -> R * R.
Variable transData : R * R -> R * R.

(** [_get_selected_object]: the loop returns at the first child that
    contains the event, and falls through to [None]. *)
Fixpoint first_containing (event : MouseEvent) (plot_objects : list MplPlotBase)
  : option MplPlotBase :=
  match plot_objects with
  | [] => None
  | plot_object :: rest =>
      if contains plot_object event then Some plot_object
      else first_containing event rest
  end.

Definition _get_selected_object (event : MouseEvent) (self : Scene3D)
  : option MplPlotBase :=
  first_containing event (_children self).

(** [_update_annot]; [str(plot_object)] is the name of the plot object. *)
Definition _update_annot (plot_object : MplPlotBase) (event : MouseEvent)
  (self : Hovered) : Hovered :=
  let named := mkText (po_name plot_object) (position (annot self))
                 (text_visible (annot self)) in
  if annot_location_is "object" (the_scene self)
  then mkHovered (the_scene self)
         (mkText (text named)
            (transData (proj_transform (annot_coords plot_object)))
            (text_visible named))
         (draw_idle_requests self)
  else if annot_location_is "mouse" (the_scene self)
  then mkHovered (the_scene self)
         (mkText (text named) (transData (xdata event, ydata event))
            (text_visible named))
         (draw_idle_requests self)
  else mkHovered (the_scene self) named (draw_idle_requests self).

(** [_hover] *)
Definition _hover (event : MouseEvent) (self : Hovered) : Hovered :=
  if inaxes_is_ax event
  then
    match _get_selected_object event (the_scene self) with
    | Some plot_object =>
        let self' := _update_annot plot_object event self in
        mkHovered (the_scene self')
          (mkText (text (annot self')) (position (annot self')) true)
          (S (draw_idle_requests self'))
    | None =>
        if text_visible (annot self)
        then mkHovered (the_scene self)
               (mkText (text (annot self)) (position (annot self)) false)
               (S (draw_idle_requests self))
        else self
    end
  else self.
End Hover.

(** *** A small scene: the inertial frame (not drawn yet, so without
    artists) and one added point, on axes with the default limits. *)

Definition inertial_frame_N : MplPlotBase := mkMplPlotBase "N" [].
Definition point_P : MplPlotBase := mkMplPlotBase "P" [].

Definition new_scene (added : list MplPlotBase) : Scene3D :=
  mkScene3D (inertial_frame_N :: added) (Some (PyStr "object"))
    (mkAxes3D (0, 1) (0, 1) (0, 1)) [].

(** A drawn line from (0, 0, 0) to (1, 2, 4). *)
Definition line_L : MplPlotBase :=
  mkMplPlotBase "L" [mkArtist (0, 0, 0) (1, 2, 4)].

End scene.

(** * Properties *)

(** ** The loops *)

Section LoopFacts.
Variables A B : Type.

Lemma for_each_unchanged (f : A -> outcome A) (l : list A) :
  Forall (fun c => f c = (c, None)) l -> for_each f l = (l, None).
Proof.
  induction 1 as [|c r Hc _ IH]; simpl.
  - reflexivity.
  - rewrite Hc, IH. reflexivity.
Qed.

Lemma for_each_done (f : A -> outcome A) (l l' : list A) :
  for_each f l = (l', None) -> Forall2 (fun c c' => f c = (c', None)) l l'.
Proof.
  revert l'. induction l as [|c r IH]; simpl; intros l' H.
  - inversion H. constructor.
  - destruct (f c) as [c' [x|]] eqn:Hc; [discriminate|].
    destruct (for_each f r) as [r' e'] eqn:Hr.
    inversion H; subst. constructor; auto.
Qed.

(** The zip loop, when no paired call raises: the paired prefix is
    updated, the rest of the children is left as it was. *)
Lemma for_zip_done (f : A -> B -> outcome A) (l : list A) (ws : list B) :
  Forall (fun cw => raised (f (fst cw) (snd cw)) = None) (combine l ws) ->
  for_zip f l ws =
    (map (fun cw => state_of (f (fst cw) (snd cw))) (combine l ws)
       ++ skipn (length ws) l, None).
Proof.
  revert ws. induction l as [|c r IH]; intros [|w ws] H; simpl; try reflexivity.
  inversion H as [|cw rest Hc Hr]; subst. simpl in Hc.
  unfold raised, state_of in *.
  destruct (f c w) as [c' e]; simpl in *. subst e.
  rewrite (IH ws Hr). reflexivity.
Qed.
End LoopFacts.

(** ** [PlotBase] *)

Module PlotBaseFacts.
Import plot_base.

(** *** Unfolding equations of the recursive setters *)

Lemma set_inertial_frame_eq new self :
  set_inertial_frame new self =
  match new with
  | PyFrame f =>
      match _inertial_frame self with
      | Some _ => (self, Some NotImplementedError)
      | None =>
          let (cs, e) := for_each (set_inertial_frame new) (_children self) in
          match e with
          | Some x => (with_children cs self, Some x)
          | None => (with_inertial_frame f (with_children cs self), None)
          end
      end
  | _ => (self, Some TypeError)
  end.
Proof. destruct self; reflexivity. Qed.

Lemma set_zero_point_eq new self :
  set_zero_point new self =
  if zero_point_conflict new self
  then (self, Some NotImplementedError)
  else
    match new with
    | PyPoint p =>
        let (cs, e) := for_each (set_zero_point new) (_children self) in
        match e with
        | Some x => (with_children cs self, Some x)
        | None => (with_zero_point p (with_children cs self), None)
        end
    | _ => (self, Some TypeError)
    end.
Proof. destruct self; reflexivity. Qed.

Lemma set_values_eq self vals :
  set_values self vals =
  match vals with
  | VList (v0 :: rest) =>
      let (cs, e) := for_zip set_values (_children self) rest in
      (with_children cs (with_values v0 self), e)
  | VList [] => (self, Some IndexError)
  | _ => (self, Some TypeError)
  end.
Proof. destruct self; reflexivity. Qed.

Lemma values_eq self :
  values self = VList (_values self :: map values (_children self)).
Proof. destruct self; reflexivity. Qed.

Lemma get_expressions_to_evaluate_eq self :
  get_expressions_to_evaluate self =
  VList (_get_expressions_to_evaluate_self self
           :: map get_expressions_to_evaluate (_children self)).
Proof. destruct self; reflexivity. Qed.

Lemma tree_zero_point_is_eq p self :
  tree_zero_point_is p self =
  match _zero_point self with
  | Some q => Nat.eqb q p
  | None => false
  end && forallb (tree_zero_point_is p) (_children self).
Proof. destruct self; reflexivity. Qed.

(** *** [zero_point] *)

Lemma set_zero_point_same p self :
  tree_zero_point_is p self = true ->
  set_zero_point (PyPoint p) self = (self, None).
Proof.
  induction self as [cs f z b v e IH] using PlotBase_tree_ind.
  rewrite tree_zero_point_is_eq, set_zero_point_eq. simpl.
  intros Ht. apply andb_true_iff in Ht as [Hz Hc].
  destruct z as [q|]; [|discriminate].
  apply Nat.eqb_eq in Hz. subst q.
  unfold zero_point_conflict. simpl. rewrite Nat.eqb_refl. simpl.
  rewrite for_each_unchanged; [reflexivity|].
  rewrite forallb_forall in Hc. rewrite Forall_forall in *.
  intros c Hin. apply IH; auto.
Qed.

(** A successful assignment leaves the point on every object of the tree. *)
Lemma set_zero_point_establishes p self self' :
  set_zero_point (PyPoint p) self = (self', None) ->
  tree_zero_point_is p self' = true.
Proof.
  revert self'.
  induction self as [cs f z b v e IH] using PlotBase_tree_ind.
  intros self'. rewrite set_zero_point_eq. simpl.
  destruct (zero_point_conflict _ _); [discriminate|].
  destruct (for_each _ cs) as [cs' [x|]] eqn:Hcs; [discriminate|].
  intros H. inversion H; subst self'. clear H.
  rewrite tree_zero_point_is_eq. simpl. rewrite Nat.eqb_refl. simpl.
  apply for_each_done in Hcs.
  induction Hcs as [|c c' r r' Hc _ IHr]; simpl; [reflexivity|].
  inversion IH as [|? ? IHc IHr']; subst.
  rewrite (IHc _ Hc). simpl. auto.
Qed.

(** The first assignment reaches every object of the tree. *)
Example set_zero_point_first :
  set_zero_point (PyPoint 2) (unassigned [unassigned [unassigned []]; unassigned []])
  = (mkPlotBase
       [mkPlotBase [mkPlotBase [] None (Some 2%nat) true (VList []) (VList [])]
          None (Some 2%nat) true (VList []) (VList []);
        mkPlotBase [] None (Some 2%nat) true (VList []) (VList [])]
       None (Some 2%nat) true (VList []) (VList []), None).
Proof. reflexivity. Qed.

Example set_zero_point_not_a_point :
  set_zero_point (PyStr "O") (unassigned []) = (unassigned [], Some TypeError).
Proof. reflexivity. Qed.

(** Below an object holding the point 2, a child holding the point 3
    refuses the point 2: the loop over the children raises. *)
Example set_zero_point_other_child :
  set_zero_point (PyPoint 2) other_zero_point
  = (other_zero_point, Some NotImplementedError).
Proof. reflexivity. Qed.




(** *** [inertial_frame] *)

Example set_inertial_frame_first :
  set_inertial_frame (PyFrame 1) (unassigned [unassigned []])
  = (mkPlotBase [mkPlotBase [] (Some 1%nat) None true (VList []) (VList [])]
       (Some 1%nat) None true (VList []) (VList []), None).
Proof. reflexivity. Qed.

Example set_inertial_frame_not_a_frame :
  set_inertial_frame (PyPoint 2) (unassigned []) = (unassigned [], Some TypeError).
Proof. reflexivity. Qed.

(** C10.  On an object whose inertial frame is assigned, every assignment
    to [inertial_frame] raises and changes nothing; assigning the very
    frame that is stored raises [NotImplementedError]. *)
Theorem inertial_frame_reassignment_raises self f
  (H : _inertial_frame self = Some f) :
  (forall new, exists e, set_inertial_frame new self = (self, Some e))
  /\ set_inertial_frame (PyFrame f) self = (self, Some NotImplementedError).
Proof.
  split.
  - intros new. rewrite set_inertial_frame_eq, H.
    destruct new; eauto.
  - rewrite set_inertial_frame_eq, H. reflexivity.
Qed.

Lemma inertial_frame_reassignment_raises_witness :
  _inertial_frame body_B = Some 1%nat
  /\ set_inertial_frame (PyFrame 1) body_B = (body_B, Some NotImplementedError).
Proof.
  split; [reflexivity|].
  exact (proj2 (@inertial_frame_reassignment_raises body_B 1%nat eq_refl)).
Defined.

(** *** [visible] *)

(** What the setter writes: the object and its children. *)
Lemma set_visible_self is_visible self :
  visible (set_visible is_visible self) = py_bool is_visible.
Proof. reflexivity. Qed.

Lemma set_visible_children is_visible self :
  map visible (children (set_visible is_visible self)) =
  map (fun _ => py_bool is_visible) (children self).
Proof.
  unfold children, set_visible. simpl.
  rewrite map_map. reflexivity.
Qed.

(** The children of the children are the objects they were. *)
Lemma set_visible_grandchildren is_visible self :
  flat_map children (children (set_visible is_visible self)) =
  flat_map children (children self).
Proof.
  unfold children, set_visible. simpl.
  induction (_children self) as [|c r IH]; simpl; [reflexivity|].
  rewrite IH. reflexivity.
Qed.

(** C3.  [body_B.visible = False] on the three-level tree [body_B], all of
    whose objects are visible: the body and its two children become
    invisible, the axis vector below the frame stays visible. *)
Theorem visible_false_stops_at_children :
  depth body_B = 3%nat
  /\ visible (set_visible (PyBool false) body_B) = false
  /\ map visible (children (set_visible (PyBool false) body_B)) = [false; false]
  /\ map visible (descendants (set_visible (PyBool false) body_B))
     = [false; true; false].
Proof. repeat split. Qed.

(** *** [values] and [get_expressions_to_evaluate] *)

(** The zip loop over children whose subtrees have the shapes of their
    expression trees. *)
Lemma for_zip_set_values_shaped cs :
  Forall (fun c => forall vals,
            shape_of vals = shape_of (get_expressions_to_evaluate c) ->
            exists c', set_values c vals = (c', None)
                       /\ values c' = vals
                       /\ get_expressions_to_evaluate c'
                          = get_expressions_to_evaluate c) cs ->
  forall rest,
    map shape_of rest = map shape_of (map get_expressions_to_evaluate cs) ->
    exists cs', for_zip set_values cs rest = (cs', None)
                /\ map values cs' = rest
                /\ map get_expressions_to_evaluate cs'
                   = map get_expressions_to_evaluate cs.
Proof.
  induction 1 as [|c r Hc _ IH]; intros [|w ws] Hs; simpl in Hs; try discriminate.
  - exists []. repeat split.
  - injection Hs as Hw Hws.
    destruct (Hc w Hw) as (c' & Hset & Hval & Hexp).
    destruct (IH ws Hws) as (r' & Hzip & Hvals & Hexps).
    exists (c' :: r'). simpl. rewrite Hset, Hzip. simpl.
    rewrite Hval, Hvals, Hexp, Hexps. repeat split.
Qed.

Lemma set_values_shaped self :
  forall vals,
    shape_of vals = shape_of (get_expressions_to_evaluate self) ->
    exists self', set_values self vals = (self', None)
                  /\ values self' = vals
                  /\ get_expressions_to_evaluate self'
                     = get_expressions_to_evaluate self.
Proof.
  induction self as [cs f z b v e IH] using PlotBase_tree_ind.
  intros vals Hs. rewrite get_expressions_to_evaluate_eq in Hs. simpl in Hs.
  destruct vals as [x|x|[|v0 rest]]; simpl in Hs; try discriminate.
  injection Hs as Hv0 Hrest.
  destruct (for_zip_set_values_shaped IH rest Hrest) as (cs' & Hzip & Hvals & Hexps).
  rewrite set_values_eq. simpl. rewrite Hzip.
  eexists. split; [reflexivity|].
  rewrite values_eq, get_expressions_to_evaluate_eq. simpl.
  rewrite Hvals, Hexps. split; reflexivity.
Qed.

(** C6.  The expression tree of an object is the list of its own
    expressions followed by the expression trees of its children, in order;
    and assigning a values tree of the shape of the expression tree
    succeeds, after which [values] reads back that very tree, so a tree of
    the shape of the expression tree. *)
Theorem values_round_trip_shape self vals
  (H : shape_of vals = shape_of (get_expressions_to_evaluate self)) :
  get_expressions_to_evaluate self
    = VList (_get_expressions_to_evaluate_self self
               :: map get_expressions_to_evaluate (children self))
  /\ exists self',
       set_values self vals = (self', None)
       /\ values self' = vals
       /\ shape_of (values self') = shape_of (get_expressions_to_evaluate self')
       /\ shape_of (values self') = shape_of (get_expressions_to_evaluate self).
Proof.
  split; [apply get_expressions_to_evaluate_eq|].
  destruct (set_values_shaped self vals H) as (self' & Hset & Hval & Hexp).
  exists self'. rewrite Hval, Hexp. auto.
Qed.

Lemma values_round_trip_shape_witness :
  shape_of body_B_values = shape_of (get_expressions_to_evaluate body_B)
  /\ exists self',
       set_values body_B body_B_values = (self', None)
       /\ values self' = body_B_values.
Proof.
  split; [reflexivity|].
  destruct (@values_round_trip_shape body_B body_B_values eq_refl)
    as (_ & self' & Hset & Hval & _).
  exists self'. split; assumption.
Defined.

(** The two ways in which the setter itself raises. *)
Lemma set_values_empty self :
  set_values self (VList []) = (self, Some IndexError).
Proof. apply set_values_eq. Qed.

Lemma set_values_not_a_list self vals :
  shape_of vals = SLeaf -> set_values self vals = (self, Some TypeError).
Proof.
  rewrite set_values_eq. destruct vals; simpl; try reflexivity; discriminate.
Qed.

(** C1, as the code has it.  The setter stores [values[0]] and pairs the
    children with [values[1:]] by [zip], without comparing their numbers:
    whenever each paired child accepts its own subtree the assignment
    succeeds, the children beyond the subtrees supplied keep their state
    and the subtrees beyond the children are ignored. *)
Theorem set_values_zip_truncates self v0 rest
  (H : Forall (fun cw => raised (set_values (fst cw) (snd cw)) = None)
         (combine (children self) rest)) :
  set_values self (VList (v0 :: rest)) =
    (with_children
       (map (fun cw => state_of (set_values (fst cw) (snd cw)))
            (combine (children self) rest)
          ++ skipn (length rest) (children self))
       (with_values v0 self),
     None).
Proof.
  rewrite set_values_eq. unfold children in *.
  rewrite (for_zip_done set_values _ _ H). reflexivity.
Qed.

Lemma set_values_zip_truncates_witness :
  Forall (fun cw => raised (set_values (fst cw) (snd cw)) = None)
    (combine (children body_B) (body_B_subtrees ++ [VList [VList [VFloat 4%R]]]))
  /\ raised (set_values body_B too_many_values) = None
  /\ values (state_of (set_values body_B too_many_values)) = body_B_values.
Proof.
  assert (H : Forall (fun cw => raised (set_values (fst cw) (snd cw)) = None)
                (combine (children body_B)
                   (body_B_subtrees ++ [VList [VList [VFloat 4%R]]])))
    by (repeat constructor).
  split; [exact H|].
  unfold too_many_values.
  rewrite (@set_values_zip_truncates body_B (VList []) _ H).
  split; reflexivity.
Defined.

(** C1, as stated, fails: [body_B] has two children, and is given a values
    tree without any subtree, then one with three subtrees; neither has the
    shape of the expression tree, and neither assignment raises.  The first
    leaves the values of the children as they were. *)
Lemma set_values_wrong_shape_accepted :
  (shape_of too_few_values <> shape_of (get_expressions_to_evaluate body_B)
   /\ raised (set_values body_B too_few_values) = None
   /\ map values (children (state_of (set_values body_B too_few_values)))
      = map values (children body_B))
  /\ (shape_of too_many_values <> shape_of (get_expressions_to_evaluate body_B)
      /\ raised (set_values body_B too_many_values) = None
      /\ values (state_of (set_values body_B too_many_values)) = body_B_values).
Proof.
  repeat split; discriminate.
Qed.

End PlotBaseFacts.

(** ** [Circle3D] *)

Module Circle3DFacts.
Import plot_artists.
Local Open Scope R_scope.

Lemma norm_canonical : norm (0, 0, 1) = 1.
Proof.
  unfold norm. replace (0 * 0 + 0 * 0 + 1 * 1) with 1 by ring.
  apply sqrt_1.
Qed.

Lemma norm_zero : norm (0, 0, 0) = 0.
Proof.
  unfold norm. replace (0 * 0 + 0 * 0 + 0 * 0) with 0 by ring.
  apply sqrt_0.
Qed.

Lemma cross_canonical :
  cross (vdiv (0, 0, 1) (norm (0, 0, 1))) (0, 0, 1) = (0, 0, 0).
Proof.
  rewrite norm_canonical. unfold vdiv, cross.
  repeat f_equal; field.
Qed.

Lemma _rotation_matrix_zero : _rotation_matrix (0, 0, 0) = identity3.
Proof.
  unfold _rotation_matrix. rewrite norm_zero.
  destruct (Req_dec_T 0 0) as [_|Hne]; [reflexivity|].
  exfalso. apply Hne. reflexivity.
Qed.

Lemma dot_identity3 v : dot identity3 v = v.
Proof.
  destruct v as [[x y] z]. unfold dot, identity3, inner.
  repeat f_equal; ring.
Qed.

Lemma add_offsets_center c0 c1 c2 segment3d :
  segment3d <> [] ->
  add_offsets 0 [c0; c1; c2] segment3d =
  inr (map (fun '(x, y, z) => (x + c0, y + c1, z + c2)) segment3d).
Proof.
  intros Hne. destruct segment3d as [|p r]; [contradiction|].
  assert (Hmap : forall l : list vec3,
    map (fun '(x, y, z) => (x, y, z + c2))
      (map (fun '(x, y, z) => (x, y + c1, z))
         (map (fun '(x, y, z) => (x + c0, y, z)) l))
    = map (fun '(x, y, z) => (x + c0, y + c1, z + c2)) l).
  { intros l. rewrite !map_map. apply map_ext. intros [[x y] z]. reflexivity. }
  destruct p as [[x y] z]. simpl. f_equal. f_equal. apply Hmap.
Qed.

(** The other branch, on the axis of the quarter turn that takes the
    normal (0, 0, 1) to (1, 0, 0): the circle is turned into the plane
    x = 0. *)
Example _rotation_matrix_quarter_turn :
  cross (1, 0, 0) (0, 0, 1) = (0, -1, 0)
  /\ _rotation_matrix (0, -1, 0) = ((0, 0, 1), (0, 1, 0), (-1, 0, 0)).
Proof.
  split.
  - unfold cross. repeat f_equal; ring.
  - assert (Hn : norm (0, -1, 0) = 1).
    { unfold norm. replace (0 * 0 + -1 * -1 + 0 * 0) with 1 by ring.
      apply sqrt_1. }
    unfold _rotation_matrix. rewrite Hn.
    destruct (Req_dec_T 1 0) as [H|_]; [lra|].
    replace (1 - 1 ^ 2) with 0 by ring. rewrite sqrt_0.
    unfold vdiv, outer, identity3, madd, msub, mscale, vadd, vsub, vscale.
    repeat f_equal; field.
Qed.

(** C8.  With the normal (0, 0, 1): the normalised normal and the canonical
    normal have the cross product zero, the rotation matrix built from it
    is the identity, and the 3D segment is the 2D path, in the plane z = 0,
    with the components of [center] added. *)
Theorem circle_canonical_normal verts c0 c1 c2 (H : verts <> []) :
  cross (vdiv (0, 0, 1) (norm (0, 0, 1))) (0, 0, 1) = (0, 0, 0)
  /\ _rotation_matrix (cross (vdiv (0, 0, 1) (norm (0, 0, 1))) (0, 0, 1))
     = identity3
  /\ _get_segment3d verts [c0; c1; c2] (0, 0, 1)
     = inr (map (fun '(x, y) => (x + c0, y + c1, 0 + c2)) verts).
Proof.
  split; [apply cross_canonical|].
  split; [rewrite cross_canonical; apply _rotation_matrix_zero|].
  unfold _get_segment3d.
  rewrite cross_canonical, _rotation_matrix_zero.
  rewrite add_offsets_center.
  - f_equal. rewrite map_map. apply map_ext.
    intros [x y]. rewrite dot_identity3. reflexivity.
  - destruct verts; [contradiction | discriminate].
Qed.

Lemma circle_canonical_normal_witness :
  [(1, 0); (0, 1)] <> []
  /\ _get_segment3d [(1, 0); (0, 1)] [5; 6; 7] (0, 0, 1)
     = inr [(1 + 5, 0 + 6, 0 + 7); (0 + 5, 1 + 6, 0 + 7)].
Proof.
  split; [discriminate|].
  assert (Hne : [(1, 0); (0, 1)] <> ([] : list (R * R))) by discriminate.
  exact (proj2 (proj2 (@circle_canonical_normal _ 5 6 7 Hne))).
Defined.

End Circle3DFacts.

(** ** [Scene3D] *)

Module Scene3DFacts.
Import plot_artists scene.
Local Open Scope R_scope.

(** *** [annot_location] *)

Lemma set_annot_location_object self :
  set_annot_location (PyStr "object") self =
  (mkScene3D (_children self) (Some (PyStr "object")) (_ax self) (called self),
   None).
Proof. reflexivity. Qed.

Lemma set_annot_location_other new self :
  new <> PyStr "object" ->
  set_annot_location new self = (self, Some NotImplementedError).
Proof.
  intros Hne. unfold set_annot_location.
  destruct new as [| | |s| |]; simpl; try reflexivity.
  destruct (String.eqb_spec s "object") as [->|_]; [contradiction|reflexivity].
Qed.

(** The setter never stores the mode "mouse" that [_update_annot] tests. *)
Lemma set_annot_location_never_mouse new self :
  annot_location_is "mouse" self = false ->
  annot_location_is "mouse" (state_of (set_annot_location new self)) = false.
Proof.
  intros H. unfold set_annot_location.
  destruct (py_eq_str new "object") eqn:Hobj; simpl; [|exact H].
  unfold annot_location_is. simpl.
  destruct new as [| | |s| |]; simpl in *; try discriminate.
  apply String.eqb_eq in Hobj. subst s. reflexivity.
Qed.

(** C2.  Assigning "mouse" to [annot_location] raises
    [NotImplementedError] and leaves the scene as it was. *)
Theorem annot_location_mouse_rejected self :
  set_annot_location (PyStr "mouse") self = (self, Some NotImplementedError).
Proof. reflexivity. Qed.

(** *** [clear] *)



(** *** [auto_zoom] *)

(** C9.  On a scene without artists [auto_zoom] returns ([None]) and
    leaves the scene as it was, its x, y and z limits included. *)
Theorem auto_zoom_no_artists scale self (H : artists self = []) :
  auto_zoom scale self = (self, None)
  /\ xlim (_ax (fst (auto_zoom scale self))) = xlim (_ax self)
  /\ ylim (_ax (fst (auto_zoom scale self))) = ylim (_ax self)
  /\ zlim (_ax (fst (auto_zoom scale self))) = zlim (_ax self).
Proof.
  unfold auto_zoom. rewrite H. repeat split.
Qed.

(** With an artist the limits are set: the box of the line, widened to the
    cube of side 1.1 * 4 around its centre. *)
Lemma auto_zoom_line :
  auto_zoom 1.1 (new_scene [line_L]) =
  (mkScene3D [inertial_frame_N; line_L] (Some (PyStr "object"))
     (mkAxes3D (-1.7, 2.7) (-1.2, 3.2) (-0.2, 4.2)) [],
   Some ((0, 0, 0), (1, 2, 4))).
Proof.
  unfold auto_zoom, new_scene, set_xlim, set_ylim, set_zlim. simpl.
  rewrite (Rmax_right (1 - 0) (2 - 0)) by lra.
  rewrite (Rmax_right (2 - 0) (4 - 0)) by lra.
  repeat f_equal; lra.
Qed.

Lemma auto_zoom_no_artists_witness :
  artists (new_scene [point_P]) = []
  /\ auto_zoom 1.1 (new_scene [point_P]) = (new_scene [point_P], None).
Proof.
  split; [reflexivity|].
  exact (proj1 (@auto_zoom_no_artists 1.1 (new_scene [point_P]) eq_refl)).
Defined.

End Scene3DFacts.

(** ** [Scene3D]: the Euler angles *)

Module Scene3DView.
Import plot_artists scene.
Local Open Scope R_scope.

(** [arctan2] gives back an angle of the interval it ranges over. *)
Lemma arctan2_principal phi :
  - PI < phi <= PI -> arctan2 (sin phi) (cos phi) = phi.
Proof.
  intros [Hlo Hhi]. pose proof PI_RGT_0 as Hpi. unfold arctan2.
  destruct (Rlt_dec phi (- (PI / 2))) as [H1|H1].
  - assert (Hc : cos phi < 0).
    { rewrite <- cos_neg. apply cos_lt_0; lra. }
    assert (Hs : sin phi < 0).
    { replace phi with (- (- phi)) by ring. rewrite sin_neg.
      assert (0 < sin (- phi)) by (apply sin_gt_0; lra). lra. }
    destruct (Rlt_dec 0 (cos phi)); [lra|].
    destruct (Rlt_dec (cos phi) 0); [|lra].
    destruct (Rle_dec 0 (sin phi)); [lra|].
    replace (sin phi / cos phi) with (tan (phi + PI)).
    + rewrite atan_tan; lra.
    + unfold tan. rewrite neg_sin, neg_cos. field. lra.
  - destruct (Req_dec phi (- (PI / 2))) as [H2|H2].
    + subst phi. rewrite cos_neg, sin_neg, cos_PI2, sin_PI2.
      destruct (Rlt_dec 0 0); [lra|].
      destruct (Rlt_dec 0 (- (1))); [lra|].
      destruct (Rlt_dec (- (1)) 0); [|lra]. reflexivity.
    + destruct (Rlt_dec phi (PI / 2)) as [H3|H3].
      * assert (Hc : 0 < cos phi) by (apply cos_gt_0; lra).
        destruct (Rlt_dec 0 (cos phi)); [|lra].
        change (sin phi / cos phi) with (tan phi). apply atan_tan. lra.
      * destruct (Req_dec phi (PI / 2)) as [H4|H4].
        -- subst phi. rewrite cos_PI2, sin_PI2.
           destruct (Rlt_dec 0 0); [lra|].
           destruct (Rlt_dec 0 1); [|lra]. reflexivity.
        -- assert (Hc : cos phi < 0) by (apply cos_lt_0; lra).
           assert (Hs : 0 <= sin phi) by (apply sin_ge_0; lra).
           destruct (Rlt_dec 0 (cos phi)); [lra|].
           destruct (Rlt_dec (cos phi) 0); [|lra].
           destruct (Rle_dec 0 (sin phi)); [|lra].
           assert (Hsin : sin phi = - sin (phi - PI)).
           { rewrite <- neg_sin. f_equal. ring. }
           assert (Hcos : cos phi = - cos (phi - PI)).
           { rewrite <- neg_cos. f_equal. ring. }
           replace (sin phi / cos phi) with (tan (phi - PI)).
           ++ rewrite atan_tan; lra.
           ++ unfold tan. rewrite Hsin, Hcos. field. lra.
Qed.

(** Sine and cosine after whole turns, in either direction. *)
Lemma sin_cos_turns x (k : Z) :
  sin (x + 2 * IZR k * PI) = sin x /\ cos (x + 2 * IZR k * PI) = cos x.
Proof.
  destruct (Z_le_gt_dec 0 k) as [Hk|Hk].
  - rewrite <- (Z2Nat.id k Hk), <- INR_IZR_INZ.
    split; [apply sin_period | apply cos_period].
  - assert (Hn : (0 <= - k)%Z) by lia.
    pose proof (sin_period (x + 2 * IZR k * PI) (Z.to_nat (- k))) as Hs.
    pose proof (cos_period (x + 2 * IZR k * PI) (Z.to_nat (- k))) as Hc.
    rewrite INR_IZR_INZ, (Z2Nat.id _ Hn), opp_IZR in Hs, Hc.
    replace (x + 2 * IZR k * PI + 2 * - IZR k * PI) with x in Hs, Hc by ring.
    split; symmetry; assumption.
Qed.

(** Every angle is, up to whole turns, in the interval of [arctan2]. *)
Lemma principal_angle phi :
  exists k : Z, - PI < phi + 2 * IZR k * PI <= PI.
Proof.
  pose proof PI_RGT_0 as Hpi.
  set (x := (phi - PI) / (2 * PI)).
  destruct (archimed (- x)) as [Hup1 Hup2].
  exists (up (- x) - 1)%Z.
  rewrite minus_IZR.
  assert (Hx : phi = 2 * PI * x + PI) by (unfold x; field; lra).
  set (u := IZR (up (- x))) in *. clearbody u x. subst phi.
  assert (H1 : 0 < (u + x) * PI) by (apply Rmult_lt_0_compat; lra).
  assert (H2 : (u + x) * PI <= 1 * PI) by (apply Rmult_le_compat_r; lra).
  split; lra.
Qed.

Lemma arctan2_sin_cos phi :
  exists k : Z, arctan2 (sin phi) (cos phi) = phi + 2 * IZR k * PI.
Proof.
  destruct (principal_angle phi) as [k Hk]. exists k.
  destruct (sin_cos_turns phi k) as [Hs Hc].
  rewrite <- Hs, <- Hc. apply arctan2_principal. exact Hk.
Qed.

Lemma rad2deg_turns x (k : Z) :
  rad2deg (x + 2 * IZR k * PI) = rad2deg x + 360 * IZR k.
Proof. unfold rad2deg. field. apply PI_neq0. Qed.

Lemma rad2deg_0 : rad2deg 0 = 0.
Proof. unfold rad2deg. apply Rmult_0_l. Qed.

Lemma arcsin_opp_0 : arcsin (- 0) = 0.
Proof. unfold arcsin. rewrite Ropp_0. apply asin_0. Qed.

Lemma arctan2_0_1 : arctan2 0 1 = 0.
Proof.
  unfold arctan2. destruct (Rlt_dec 0 1); [|lra].
  replace (0 / 1) with 0 by field. apply atan_0.
Qed.

Lemma azimuth_of_angle phi :
  exists k : Z, rad2deg (arctan2 (sin phi) (cos phi)) = rad2deg phi + 360 * IZR k.
Proof.
  destruct (arctan2_sin_cos phi) as [k Hk]. exists k.
  rewrite Hk. apply rad2deg_turns.
Qed.

(** C7, as the code has it.  The angles are, in degrees, the arcsine of
    -R[2,0] (elevation), the [arctan2] of R[1,0] and R[0,0] (azimuth) and
    the [arctan2] of R[2,1] and R[2,2] (roll).  For the identity matrix all
    three are 0.  For the matrix of a projection frame turned by [theta]
    about the z axis of the inertial frame, elevation and roll are 0 and
    the azimuth is [- theta] up to whole turns of 360 degrees; [theta] up
    to whole turns is the azimuth of the transposed matrix. *)
Theorem get_euler_angels_about_z :
  (forall m00 m01 m02 m10 m11 m12 m20 m21 m22,
     get_euler_angels ((m00, m01, m02), (m10, m11, m12), (m20, m21, m22))
     = mkEulerAngles (rad2deg (arcsin (- m20)))
                     (rad2deg (arctan2 m10 m00))
                     (rad2deg (arctan2 m21 m22)))
  /\ get_euler_angels identity3 = mkEulerAngles 0 0 0
  /\ (forall theta,
        elev (get_euler_angels (dcm_about_z theta)) = 0
        /\ roll (get_euler_angels (dcm_about_z theta)) = 0
        /\ exists k : Z,
             azim (get_euler_angels (dcm_about_z theta))
             = rad2deg (- theta) + 360 * IZR k)
  /\ (forall theta,
        exists k : Z,
          azim (get_euler_angels (transpose (dcm_about_z theta)))
          = rad2deg theta + 360 * IZR k).
Proof.
  split; [reflexivity|].
  split.
  { unfold get_euler_angels, identity3.
    rewrite arcsin_opp_0, arctan2_0_1, rad2deg_0. reflexivity. }
  split.
  - intros theta. unfold get_euler_angels, dcm_about_z. simpl.
    rewrite arcsin_opp_0, arctan2_0_1, rad2deg_0.
    split; [reflexivity|]. split; [reflexivity|].
    rewrite <- sin_neg, <- (cos_neg theta). apply azimuth_of_angle.
  - intros theta. unfold get_euler_angels, dcm_about_z, transpose. simpl.
    apply azimuth_of_angle.
Qed.

(** C7, as stated, fails: for a projection frame turned by a quarter turn
    about the z axis the azimuth is -90 degrees, which is not 90 degrees up
    to whole turns of 360 degrees. *)
Lemma get_euler_angels_quarter_turn :
  azim (get_euler_angels (dcm_about_z (PI / 2))) = -90
  /\ rad2deg (PI / 2) = 90
  /\ ~ exists k : Z,
         azim (get_euler_angels (dcm_about_z (PI / 2)))
         = rad2deg (PI / 2) + 360 * IZR k.
Proof.
  assert (Hazim : azim (get_euler_angels (dcm_about_z (PI / 2))) = -90).
  { unfold get_euler_angels, dcm_about_z. simpl.
    rewrite sin_PI2, cos_PI2. unfold arctan2.
    destruct (Rlt_dec 0 0); [lra|].
    destruct (Rlt_dec 0 (- (1))); [lra|].
    destruct (Rlt_dec (- (1)) 0); [|lra].
    unfold rad2deg. field. apply PI_neq0. }
  assert (Hdeg : rad2deg (PI / 2) = 90).
  { unfold rad2deg. field. apply PI_neq0. }
  split; [exact Hazim|]. split; [exact Hdeg|].
  rewrite Hazim, Hdeg. intros [k Hk].
  assert (Hz : IZR (2 * k) = IZR (-1)).
  { rewrite mult_IZR. lra. }
  apply eq_IZR in Hz. lia.
Qed.

End Scene3DView.

(** * Further properties *)

(** ** The loops, continued *)

Section LoopOutcomes.
Variables A C : Type.

(** A loop whose body, on each element, either succeeds on the elements
    that satisfy [P] (leaving them in [Q]) or raises [x] on the others:
    it runs to its end exactly when every element satisfies [P]. *)
Lemma for_each_decided (f : A -> outcome A) (P Q : A -> bool) (x : exn)
  (l : list A) :
  Forall (fun c => if P c
                   then exists c', f c = (c', None) /\ Q c' = true
                   else raised (f c) = Some x) l ->
  if forallb P l
  then exists l', for_each f l = (l', None) /\ forallb Q l' = true
  else raised (for_each f l) = Some x.
Proof.
  induction 1 as [|c r Hc _ IH]; simpl.
  - exists []. split; reflexivity.
  - destruct (P c); simpl.
    + destruct Hc as (c' & Hf & Hq). rewrite Hf.
      destruct (forallb P r).
      * destruct IH as (r' & Hr & Hqr). rewrite Hr.
        exists (c' :: r'). simpl. rewrite Hq, Hqr. split; reflexivity.
      * unfold raised in *. destruct (for_each f r) as [r' e]. simpl in *.
        exact IH.
    + unfold raised in *. destruct (f c) as [c' e]. simpl in *.
      subst e. reflexivity.
Qed.

(** What the body of a loop leaves alone, the loop leaves alone, raise or
    not. *)
Lemma for_each_keeps (g : A -> C) (f : A -> outcome A) (l : list A) :
  Forall (fun c => g (state_of (f c)) = g c) l ->
  map g (state_of (for_each f l)) = map g l.
Proof.
  unfold state_of.
  induction 1 as [|c r Hc _ IH]; simpl; [reflexivity|].
  destruct (f c) as [c' [x|]]; simpl in *.
  - rewrite Hc. reflexivity.
  - destruct (for_each f r) as [r' e']. simpl in *. rewrite Hc, IH. reflexivity.
Qed.

End LoopOutcomes.

(** ** [PlotBase], continued *)

Module PlotBaseSetters.
Import plot_base PlotBaseFacts.

Lemma tree_without_inertial_frame_eq self :
  tree_without_inertial_frame self =
  match _inertial_frame self with
  | Some _ => false
  | None => true
  end && forallb tree_without_inertial_frame (_children self).
Proof. destruct self; reflexivity. Qed.

Lemma tree_inertial_frame_is_eq f self :
  tree_inertial_frame_is f self =
  match _inertial_frame self with
  | Some g => Nat.eqb g f
  | None => false
  end && forallb (tree_inertial_frame_is f) (_children self).
Proof. destruct self; reflexivity. Qed.

Lemma tree_admits_zero_point_eq p self :
  tree_admits_zero_point p self =
  match _zero_point self with
  | Some q => Nat.eqb q p
  | None => true
  end && forallb (tree_admits_zero_point p) (_children self).
Proof. destruct self; reflexivity. Qed.

(** *** [inertial_frame]: when the assignment of a frame goes through *)

Lemma set_inertial_frame_decided f self :
  if tree_without_inertial_frame self
  then exists self', set_inertial_frame (PyFrame f) self = (self', None)
                     /\ tree_inertial_frame_is f self' = true
  else raised (set_inertial_frame (PyFrame f) self) = Some NotImplementedError.
Proof.
  induction self as [cs g z b v e IH] using PlotBase_tree_ind.
  rewrite tree_without_inertial_frame_eq, set_inertial_frame_eq. simpl.
  destruct g as [g|]; simpl; [reflexivity|].
  pose proof (for_each_decided (set_inertial_frame (PyFrame f))
                tree_without_inertial_frame (tree_inertial_frame_is f)
                NotImplementedError IH) as Hloop.
  destruct (forallb tree_without_inertial_frame cs).
  - destruct Hloop as (cs' & Hcs & Hall). rewrite Hcs.
    eexists. split; [reflexivity|].
    rewrite tree_inertial_frame_is_eq. simpl.
    rewrite Nat.eqb_refl, Hall. reflexivity.
  - unfold raised in *.
    destruct (for_each _ cs) as [cs' e']. simpl in *. subst e'. reflexivity.
Qed.

(** X1.  Assigning a [ReferenceFrame] goes through exactly on a tree none
    of whose objects has an inertial frame yet; on any other tree it raises
    [NotImplementedError]. *)
Theorem inertial_frame_assignable_iff f self :
  (raised (set_inertial_frame (PyFrame f) self) = None
   <-> tree_without_inertial_frame self = true)
  /\ (raised (set_inertial_frame (PyFrame f) self) = Some NotImplementedError
      <-> tree_without_inertial_frame self = false).
Proof.
  pose proof (set_inertial_frame_decided f self) as H.
  destruct (tree_without_inertial_frame self).
  - destruct H as (self' & Hset & _). rewrite Hset. simpl.
    repeat split; auto; discriminate.
  - rewrite H. repeat split; auto; discriminate.
Qed.

(** X2.  An assignment to [inertial_frame] that goes through was given a
    [ReferenceFrame], and leaves it on every object of the tree. *)
Theorem inertial_frame_assigned_throughout new self self'
  (H : set_inertial_frame new self = (self', None)) :
  exists f, new = PyFrame f /\ tree_inertial_frame_is f self' = true.
Proof.
  destruct new as [| | | | |f];
    try (rewrite set_inertial_frame_eq in H; discriminate).
  exists f. split; [reflexivity|].
  pose proof (set_inertial_frame_decided f self) as Hd.
  destruct (tree_without_inertial_frame self).
  - destruct Hd as (self'' & Hset & Hall). rewrite Hset in H.
    inversion H; subst. exact Hall.
  - rewrite H in Hd. discriminate.
Qed.

Lemma inertial_frame_assigned_throughout_witness :
  set_inertial_frame (PyFrame 1) (unassigned [unassigned [unassigned []]])
  = (mkPlotBase
       [mkPlotBase [mkPlotBase [] (Some 1%nat) None true (VList []) (VList [])]
          (Some 1%nat) None true (VList []) (VList [])]
       (Some 1%nat) None true (VList []) (VList []), None)
  /\ exists f, PyFrame 1 = PyFrame f
       /\ tree_inertial_frame_is f
            (mkPlotBase
               [mkPlotBase
                  [mkPlotBase [] (Some 1%nat) None true (VList []) (VList [])]
                  (Some 1%nat) None true (VList []) (VList [])]
               (Some 1%nat) None true (VList []) (VList [])) = true.
Proof.
  split; [reflexivity|].
  exact (@inertial_frame_assigned_throughout (PyFrame 1)
           (unassigned [unassigned [unassigned []]]) _ eq_refl).
Defined.

(** *** [zero_point]: when the assignment of a point goes through *)

Lemma set_zero_point_decided p self :
  if tree_admits_zero_point p self
  then exists self', set_zero_point (PyPoint p) self = (self', None)
                     /\ tree_zero_point_is p self' = true
  else raised (set_zero_point (PyPoint p) self) = Some NotImplementedError.
Proof.
  induction self as [cs g z b v e IH] using PlotBase_tree_ind.
  rewrite tree_admits_zero_point_eq, set_zero_point_eq.
  unfold zero_point_conflict. simpl.
  assert (Hz : match z with Some q => Nat.eqb q p | None => true end
               = negb match z with
                      | Some q => negb (Nat.eqb p q)
                      | None => false
                      end).
  { destruct z as [q|]; simpl; [|reflexivity].
    rewrite (Nat.eqb_sym p q). destruct (Nat.eqb q p); reflexivity. }
  rewrite Hz.
  destruct (match z with Some q => negb (Nat.eqb p q) | None => false end);
    simpl; [reflexivity|].
  pose proof (for_each_decided (set_zero_point (PyPoint p))
                (tree_admits_zero_point p) (tree_zero_point_is p)
                NotImplementedError IH) as Hloop.
  destruct (forallb (tree_admits_zero_point p) cs).
  - destruct Hloop as (cs' & Hcs & Hall). rewrite Hcs.
    eexists. split; [reflexivity|].
    rewrite tree_zero_point_is_eq. simpl.
    rewrite Nat.eqb_refl, Hall. reflexivity.
  - unfold raised in *.
    destruct (for_each _ cs) as [cs' e']. simpl in *. subst e'. reflexivity.
Qed.

(** X3.  Assigning a [Point] goes through exactly on a tree each of whose
    objects has no zero point yet or holds that very point; on any other
    tree it raises [NotImplementedError]. *)
Theorem zero_point_assignable_iff p self :
  (raised (set_zero_point (PyPoint p) self) = None
   <-> tree_admits_zero_point p self = true)
  /\ (raised (set_zero_point (PyPoint p) self) = Some NotImplementedError
      <-> tree_admits_zero_point p self = false).
Proof.
  pose proof (set_zero_point_decided p self) as H.
  destruct (tree_admits_zero_point p self).
  - destruct H as (self' & Hset & _). rewrite Hset. simpl.
    repeat split; auto; discriminate.
  - rewrite H. repeat split; auto; discriminate.
Qed.

(** X4.  An assignment to [zero_point] that goes through was given a
    [Point] and leaves it on every object of the tree; from then on the
    same point is accepted again without any change, and every other point
    is refused without any change. *)
Theorem zero_point_assigned_throughout new self self'
  (H : set_zero_point new self = (self', None)) :
  exists p,
    new = PyPoint p
    /\ tree_zero_point_is p self' = true
    /\ set_zero_point (PyPoint p) self' = (self', None)
    /\ forall q, q <> p ->
         set_zero_point (PyPoint q) self' = (self', Some NotImplementedError).
Proof.
  assert (Hp : exists p, new = PyPoint p).
  { rewrite set_zero_point_eq in H.
    destruct (zero_point_conflict new self); [discriminate|].
    destruct new; try discriminate. eauto. }
  destruct Hp as [p ->]. exists p. split; [reflexivity|].
  pose proof (set_zero_point_establishes _ _ H) as Hall.
  split; [exact Hall|]. split; [apply set_zero_point_same; exact Hall|].
  intros q Hq. rewrite set_zero_point_eq. unfold zero_point_conflict.
  rewrite tree_zero_point_is_eq in Hall.
  apply andb_true_iff in Hall as [Hz _].
  destruct (_zero_point self') as [r|]; [|discriminate].
  apply Nat.eqb_eq in Hz. subst r. simpl.
  apply Nat.eqb_neq in Hq. rewrite Hq. reflexivity.
Qed.

Lemma zero_point_assigned_throughout_witness :
  set_zero_point (PyPoint 2) (unassigned [unassigned []])
  = (mkPlotBase [mkPlotBase [] None (Some 2%nat) true (VList []) (VList [])]
       None (Some 2%nat) true (VList []) (VList []), None)
  /\ exists p, PyPoint 2 = PyPoint p
       /\ tree_zero_point_is p
            (mkPlotBase
               [mkPlotBase [] None (Some 2%nat) true (VList []) (VList [])]
               None (Some 2%nat) true (VList []) (VList [])) = true.
Proof.
  split; [reflexivity|].
  destruct (@zero_point_assigned_throughout (PyPoint 2)
              (unassigned [unassigned []]) _ eq_refl) as (p & Hp & Hall & _).
  exists p. split; assumption.
Defined.

(** X5.  The checks of the two setters come in opposite orders.  Given a
    value that is not a [Point], [zero_point] raises [TypeError] only while
    the object has no zero point, and [NotImplementedError] once it has
    one; given a value that is not a [ReferenceFrame], [inertial_frame]
    raises [TypeError] whether or not a frame is assigned.  Neither
    changes anything. *)
Theorem setters_reject_other_types new self :
  ((forall p, new <> PyPoint p) ->
   set_zero_point new self =
   (self, Some match _zero_point self with
               | Some _ => NotImplementedError
               | None => TypeError
               end))
  /\ ((forall f, new <> PyFrame f) ->
      set_inertial_frame new self = (self, Some TypeError)).
Proof.
  split; intros Hne.
  - rewrite set_zero_point_eq. unfold zero_point_conflict.
    destruct (_zero_point self) as [q|];
      destruct new as [| | | |p|]; simpl; try reflexivity;
      exfalso; apply (Hne p); reflexivity.
  - rewrite set_inertial_frame_eq.
    destruct new as [| | | | |f]; try reflexivity.
    exfalso. apply (Hne f). reflexivity.
Qed.

Lemma setters_reject_other_types_witness :
  set_zero_point PyNone body_B = (body_B, Some NotImplementedError)
  /\ set_zero_point PyNone (unassigned []) = (unassigned [], Some TypeError)
  /\ set_inertial_frame PyNone body_B = (body_B, Some TypeError).
Proof.
  assert (Hp : forall p, PyNone <> PyPoint p) by discriminate.
  assert (Hf : forall f, PyNone <> PyFrame f) by discriminate.
  split; [exact (proj1 (setters_reject_other_types PyNone body_B) Hp)|].
  split; [exact (proj1 (setters_reject_other_types PyNone (unassigned [])) Hp)|].
  exact (proj2 (setters_reject_other_types PyNone body_B) Hf).
Defined.

(** X6.  An assignment that raises has not written the attribute of the
    object itself: the write comes after the loop over the children. *)
Theorem failed_assignment_keeps_own_attribute new self :
  (raised (set_zero_point new self) <> None ->
   _zero_point (state_of (set_zero_point new self)) = _zero_point self)
  /\ (raised (set_inertial_frame new self) <> None ->
      _inertial_frame (state_of (set_inertial_frame new self))
      = _inertial_frame self).
Proof.
  split; intros Hr.
  - rewrite set_zero_point_eq in *.
    destruct (zero_point_conflict new self); [reflexivity|].
    destruct new; try reflexivity.
    destruct (for_each _ (_children self)) as [cs [x|]]; simpl in *;
      [reflexivity | contradiction].
  - rewrite set_inertial_frame_eq in *.
    destruct new; try reflexivity.
    destruct (_inertial_frame self) eqn:Hf; [simpl; auto|].
    destruct (for_each _ (_children self)) as [cs [x|]]; simpl in *;
      [auto | contradiction].
Qed.

Lemma failed_assignment_keeps_own_attribute_witness :
  raised (set_zero_point (PyPoint 2) other_zero_point) <> None
  /\ _zero_point (state_of (set_zero_point (PyPoint 2) other_zero_point))
     = Some 2%nat.
Proof.
  assert (Hr : raised (set_zero_point (PyPoint 2) other_zero_point) <> None)
    by discriminate.
  split; [exact Hr|].
  exact (proj1 (failed_assignment_keeps_own_attribute (PyPoint 2)
                  other_zero_point) Hr).
Defined.

(** *** [values]: reading and writing back *)

Lemma for_zip_values_back cs :
  Forall (fun c => set_values c (values c) = (c, None)) cs ->
  for_zip set_values cs (map values cs) = (cs, None).
Proof.
  induction 1 as [|c r Hc _ IH]; simpl; [reflexivity|].
  rewrite Hc, IH. reflexivity.
Qed.

(** X8.  Writing back what [values] reads goes through and changes
    nothing. *)
Theorem values_written_back self :
  set_values self (values self) = (self, None).
Proof.
  induction self as [cs g z b v e IH] using PlotBase_tree_ind.
  rewrite values_eq, set_values_eq. simpl.
  rewrite (for_zip_values_back IH). reflexivity.
Qed.

(** *** [visible] on a tree of two levels *)

Lemma depth_positive self : (1 <= depth self)%nat.
Proof. destruct self; simpl; lia. Qed.

Lemma depth_one_no_children self :
  (depth self <= 1)%nat -> _children self = [].
Proof.
  destruct self as [cs g z b v e]. simpl.
  destruct cs as [|c r]; [reflexivity|]. simpl.
  pose proof (depth_positive c). lia.
Qed.

Lemma depth_children self c :
  In c (_children self) -> (S (depth c) <= depth self)%nat.
Proof.
  destruct self as [cs g z b v e]. simpl.
  induction cs as [|c' r IH]; simpl; [contradiction|].
  intros [->|Hin]; [lia|]. apply IH in Hin. lia.
Qed.

Lemma descendants_eq self :
  descendants self = flat_map (fun c => c :: descendants c) (_children self).
Proof. destruct self; reflexivity. Qed.

(** X9.  On a tree of at most two levels (an object and its children)
    the assignment to [visible] reaches every object: the object itself
    and all its descendants read back the truth value assigned. *)
Theorem visible_reaches_two_levels is_visible self
  (H : (depth self <= 2)%nat) :
  visible (set_visible is_visible self) = py_bool is_visible
  /\ Forall (fun d => visible d = py_bool is_visible)
            (descendants (set_visible is_visible self)).
Proof.
  split; [reflexivity|].
  rewrite descendants_eq. unfold set_visible. simpl.
  assert (Hleaf : forall c, In c (_children self) -> _children c = []).
  { intros c Hin. apply depth_one_no_children.
    apply depth_children in Hin. lia. }
  induction (_children self) as [|c r IH]; simpl; [constructor|].
  assert (Hc : _children c = []) by (apply Hleaf; left; reflexivity).
  rewrite Hc. simpl.
  constructor; [reflexivity|].
  apply IH. intros c' Hin. apply Hleaf. right. exact Hin.
Qed.

Lemma visible_reaches_two_levels_witness :
  (depth frame_A <= 2)%nat
  /\ Forall (fun d => visible d = false)
            (descendants (set_visible PyNone frame_A)).
Proof.
  assert (H : (depth frame_A <= 2)%nat) by (simpl; lia).
  split; [exact H|].
  exact (proj2 (@visible_reaches_two_levels PyNone frame_A H)).
Defined.

(** X10.  Of two assignments to [visible] the later one decides: the state
    is the one the later assignment alone would have produced. *)
Theorem visible_last_assignment_wins first second self :
  set_visible second (set_visible first self) = set_visible second self.
Proof.
  destruct self as [cs g z b v e]. unfold set_visible, with_visible,
    with_children. simpl. f_equal.
  rewrite map_map. apply map_ext. intros [cs' g' z' b' v' e']. reflexivity.
Qed.

(** *** The attribute setters and the values *)

Lemma set_zero_point_keeps_values new self :
  values (state_of (set_zero_point new self)) = values self.
Proof.
  induction self as [cs g z b v e IH] using PlotBase_tree_ind.
  pose proof (for_each_keeps values (set_zero_point new) IH) as Hloop.
  rewrite set_zero_point_eq. unfold state_of in *.
  destruct (zero_point_conflict _ _); [reflexivity|].
  destruct new; try reflexivity. simpl.
  destruct (for_each _ cs) as [cs' [x|]]; simpl in *;
    rewrite Hloop; reflexivity.
Qed.

Lemma set_inertial_frame_keeps_values new self :
  values (state_of (set_inertial_frame new self)) = values self.
Proof.
  induction self as [cs g z b v e IH] using PlotBase_tree_ind.
  pose proof (for_each_keeps values (set_inertial_frame new) IH) as Hloop.
  rewrite set_inertial_frame_eq. unfold state_of in *.
  destruct new; try reflexivity. simpl.
  destruct g; [reflexivity|].
  destruct (for_each _ cs) as [cs' [x|]]; simpl in *;
    rewrite Hloop; reflexivity.
Qed.

Lemma set_visible_keeps_values is_visible self :
  values (set_visible is_visible self) = values self.
Proof.
  destruct self as [cs g z b v e]. unfold set_visible. simpl.
  rewrite map_map. f_equal. f_equal. apply map_ext.
  intros [cs' g' z' b' v' e']. reflexivity.
Qed.

(** X11.  The setters of [zero_point], [inertial_frame] and [visible]
    leave the values of the whole tree as they were, whether they go
    through or raise half-way. *)
Theorem attribute_setters_keep_values new self :
  values (state_of (set_zero_point new self)) = values self
  /\ values (state_of (set_inertial_frame new self)) = values self
  /\ values (set_visible new self) = values self.
Proof.
  split; [apply set_zero_point_keeps_values|].
  split; [apply set_inertial_frame_keeps_values|].
  apply set_visible_keeps_values.
Qed.

End PlotBaseSetters.

(** ** [Circle3D], continued: the rotation *)

Module Circle3DRotation.
Import plot_artists Circle3DFacts.
Local Open Scope R_scope.

(** X13.  The sign of the z component of the normal is ignored: a normal
    and its mirror image in the plane z = 0 give the same 3D segment. *)
Theorem circle_normal_mirrored verts center a b c :
  _get_segment3d verts center (a, b, - c)
  = _get_segment3d verts center (a, b, c).
Proof.
  unfold _get_segment3d.
  assert (Hn : norm (a, b, - c) = norm (a, b, c)).
  { unfold norm. f_equal. ring. }
  rewrite Hn.
  assert (Hd : cross (vdiv (a, b, - c) (norm (a, b, c))) (0, 0, 1)
               = cross (vdiv (a, b, c) (norm (a, b, c))) (0, 0, 1)).
  { unfold vdiv, cross, Rdiv.
    replace (b * / norm (a, b, c) * 1 - - c * / norm (a, b, c) * 0)
      with (b * / norm (a, b, c) * 1 - c * / norm (a, b, c) * 0) by ring.
    replace (- c * / norm (a, b, c) * 0 - a * / norm (a, b, c) * 1)
      with (c * / norm (a, b, c) * 0 - a * / norm (a, b, c) * 1) by ring.
    reflexivity. }
  rewrite Hd. reflexivity.
Qed.

(** X15.  The offsets of [center] go to the columns in turn: with fewer
    than three components the remaining columns stay as they are, and with
    more than three the loop raises [IndexError] (there is no column 3). *)
Theorem add_offsets_by_column segment3d (H : segment3d <> []) :
  add_offsets 0 [] segment3d = inr segment3d
  /\ (forall c0, add_offsets 0 [c0] segment3d
        = inr (map (fun '(x, y, z) => (x + c0, y, z)) segment3d))
  /\ (forall c0 c1, add_offsets 0 [c0; c1] segment3d
        = inr (map (fun '(x, y, z) => (x + c0, y + c1, z)) segment3d))
  /\ (forall c0 c1 c2 c3 rest,
        add_offsets 0 (c0 :: c1 :: c2 :: c3 :: rest) segment3d
        = inl IndexError).
Proof.
  destruct segment3d as [|[[x y] z] r]; [contradiction|].
  split; [reflexivity|].
  split; [intros c0; reflexivity|].
  split.
  - intros c0 c1. simpl. do 2 f_equal.
    rewrite map_map. apply map_ext. intros [[x' y'] z']. reflexivity.
  - intros c0 c1 c2 c3 rest. reflexivity.
Qed.

Lemma add_offsets_by_column_witness :
  [(1, 2, 3)] <> []
  /\ add_offsets 0 [5; 6; 7; 8] [(1, 2, 3)] = inl IndexError.
Proof.
  assert (H : [(1, 2, 3)] <> ([] : list vec3)) by discriminate.
  split; [exact H|].
  exact (proj2 (proj2 (proj2 (@add_offsets_by_column _ H))) 5 6 7 8 []).
Defined.

End Circle3DRotation.

(** ** [Scene3D], continued: [auto_zoom] with artists *)

Module Scene3DZoom.
Import plot_artists scene.
Local Open Scope R_scope.

Lemma vle_refl a : vle a a.
Proof. destruct a as [[a0 a1] a2]. unfold vle. lra. Qed.

Lemma vle_trans a b c : vle a b -> vle b c -> vle a c.
Proof.
  destruct a as [[a0 a1] a2], b as [[b0 b1] b2], c as [[c0 c1] c2].
  unfold vle. lra.
Qed.

Lemma vmin_le a b : vle (vmin a b) a /\ vle (vmin a b) b.
Proof.
  destruct a as [[a0 a1] a2], b as [[b0 b1] b2]. unfold vle, vmin.
  pose proof (Rmin_l a0 b0). pose proof (Rmin_r a0 b0).
  pose proof (Rmin_l a1 b1). pose proof (Rmin_r a1 b1).
  pose proof (Rmin_l a2 b2). pose proof (Rmin_r a2 b2). lra.
Qed.

Lemma vmax_ge a b : vle a (vmax a b) /\ vle b (vmax a b).
Proof.
  destruct a as [[a0 a1] a2], b as [[b0 b1] b2]. unfold vle, vmax.
  pose proof (Rmax_l a0 b0). pose proof (Rmax_r a0 b0).
  pose proof (Rmax_l a1 b1). pose proof (Rmax_r a1 b1).
  pose proof (Rmax_l a2 b2). pose proof (Rmax_r a2 b2). lra.
Qed.

(** [np.min(rows, axis=0)] is below every row, [np.max(rows, axis=0)]
    above every row. *)
Lemma fold_vmin_below l : forall a,
  vle (fold_left vmin l a) a /\ Forall (vle (fold_left vmin l a)) l.
Proof.
  induction l as [|b r IH]; intros a; simpl.
  - split; [apply vle_refl | constructor].
  - destruct (IH (vmin a b)) as [Hab Hr]. destruct (vmin_le a b) as [Ha Hb].
    split; [eapply vle_trans; eauto|].
    constructor; [eapply vle_trans; eauto | exact Hr].
Qed.

Lemma fold_vmax_above l : forall a,
  vle a (fold_left vmax l a) /\ Forall (fun b => vle b (fold_left vmax l a)) l.
Proof.
  induction l as [|b r IH]; intros a; simpl.
  - split; [apply vle_refl | constructor].
  - destruct (IH (vmax a b)) as [Hab Hr]. destruct (vmax_ge a b) as [Ha Hb].
    split; [eapply vle_trans; eauto|].
    constructor; [eapply vle_trans; eauto | exact Hr].
Qed.

(** The call, once the bounding box is known. *)
Lemma auto_zoom_with_artists scale self a rest m0 m1 m2 M0 M1 M2 :
  artists self = a :: rest ->
  fold_left vmin (map art_min rest) (art_min a) = (m0, m1, m2) ->
  fold_left vmax (map art_max rest) (art_max a) = (M0, M1, M2) ->
  auto_zoom scale self =
  (let size := scale * Rmax (Rmax (M0 - m0) (M1 - m1)) (M2 - m2) in
   mkScene3D (_children self) (_annot_location self)
     (mkAxes3D (m0 - (size - (M0 - m0)) / 2, M0 + (size - (M0 - m0)) / 2)
               (m1 - (size - (M1 - m1)) / 2, M1 + (size - (M1 - m1)) / 2)
               (m2 - (size - (M2 - m2)) / 2, M2 + (size - (M2 - m2)) / 2))
     (called self),
   Some ((m0, m1, m2), (M0, M1, M2))).
Proof.
  intros Ha Hm HM. unfold auto_zoom. rewrite Ha, Hm, HM. reflexivity.
Qed.

Lemma bounding_box a rest m M :
  fold_left vmin (map art_min rest) (art_min a) = m ->
  fold_left vmax (map art_max rest) (art_max a) = M ->
  Forall (fun x => vle m (art_min x) /\ vle (art_max x) M) (a :: rest).
Proof.
  intros Hm HM.
  destruct (fold_vmin_below (map art_min rest) (art_min a)) as [Ha Hr].
  destruct (fold_vmax_above (map art_max rest) (art_max a)) as [Ha' Hr'].
  rewrite Hm in *. rewrite HM in *.
  constructor; [split; assumption|].
  rewrite Forall_map in Hr, Hr'. rewrite Forall_forall in *.
  intros x Hin. split; [apply Hr | apply Hr']; exact Hin.
Qed.

(** X16.  With artists, [auto_zoom] returns their bounding box: a pair
    (min, max) with min below the [min()] and max above the [max()] of every
    artist, in each component. *)
Theorem auto_zoom_returns_bounding_box scale self (H : artists self <> []) :
  exists m M,
    snd (auto_zoom scale self) = Some (m, M)
    /\ Forall (fun x => vle m (art_min x) /\ vle (art_max x) M) (artists self).
Proof.
  destruct (artists self) as [|a rest] eqn:Ha; [contradiction|].
  destruct (fold_left vmin (map art_min rest) (art_min a))
    as [[m0 m1] m2] eqn:Hm.
  destruct (fold_left vmax (map art_max rest) (art_max a))
    as [[M0 M1] M2] eqn:HM.
  exists (m0, m1, m2), (M0, M1, M2).
  rewrite (auto_zoom_with_artists scale self Ha Hm HM).
  split; [reflexivity|]. apply (bounding_box _ _ Hm HM).
Qed.

Lemma auto_zoom_returns_bounding_box_witness :
  artists (new_scene [line_L]) <> []
  /\ exists m M,
       snd (auto_zoom 1.1 (new_scene [line_L])) = Some (m, M)
       /\ Forall (fun x => vle m (art_min x) /\ vle (art_max x) M)
                 (artists (new_scene [line_L])).
Proof.
  assert (H : artists (new_scene [line_L]) <> []) by discriminate.
  split; [exact H|].
  exact (@auto_zoom_returns_bounding_box 1.1 (new_scene [line_L]) H).
Defined.

(** X17.  With artists, the limits set by [auto_zoom] form a cube around
    the centre of the bounding box: on each axis they are the middle of
    the box on that axis, minus and plus half of [scale] times the largest
    of the three extents of the box. *)
Theorem auto_zoom_limits scale self (H : artists self <> []) :
  exists m0 m1 m2 M0 M1 M2,
    snd (auto_zoom scale self) = Some ((m0, m1, m2), (M0, M1, M2))
    /\ let size := scale * Rmax (Rmax (M0 - m0) (M1 - m1)) (M2 - m2) in
       let ax := _ax (fst (auto_zoom scale self)) in
       xlim ax = ((m0 + M0) / 2 - size / 2, (m0 + M0) / 2 + size / 2)
       /\ ylim ax = ((m1 + M1) / 2 - size / 2, (m1 + M1) / 2 + size / 2)
       /\ zlim ax = ((m2 + M2) / 2 - size / 2, (m2 + M2) / 2 + size / 2).
Proof.
  destruct (artists self) as [|a rest] eqn:Ha; [contradiction|].
  destruct (fold_left vmin (map art_min rest) (art_min a))
    as [[m0 m1] m2] eqn:Hm.
  destruct (fold_left vmax (map art_max rest) (art_max a))
    as [[M0 M1] M2] eqn:HM.
  exists m0, m1, m2, M0, M1, M2.
  rewrite (auto_zoom_with_artists scale self Ha Hm HM).
  split; [reflexivity|]. simpl.
  repeat split; f_equal; field.
Qed.

Lemma auto_zoom_limits_witness :
  artists (new_scene [line_L]) <> []
  /\ exists m0 m1 m2 M0 M1 M2,
       snd (auto_zoom 1.1 (new_scene [line_L]))
       = Some ((m0, m1, m2), (M0, M1, M2)).
Proof.
  assert (H : artists (new_scene [line_L]) <> []) by discriminate.
  split; [exact H|].
  destruct (@auto_zoom_limits 1.1 (new_scene [line_L]) H)
    as (m0 & m1 & m2 & M0 & M1 & M2 & Hret & _).
  exists m0, m1, m2, M0, M1, M2. exact Hret.
Defined.

(** X18.  With a [scale] of at least 1, and artists each of whose [min()]
    is below its [max()], the limits set by [auto_zoom] enclose every
    artist on the three axes. *)
Theorem auto_zoom_encloses_artists scale self
  (Hs : 1 <= scale)
  (Hwf : Forall (fun x => vle (art_min x) (art_max x)) (artists self)) :
  Forall (fun x => within_limits (_ax (fst (auto_zoom scale self)))
                     (art_min x) (art_max x))
         (artists self).
Proof.
  destruct (artists self) as [|a rest] eqn:Ha; [constructor|].
  destruct (fold_left vmin (map art_min rest) (art_min a))
    as [[m0 m1] m2] eqn:Hm.
  destruct (fold_left vmax (map art_max rest) (art_max a))
    as [[M0 M1] M2] eqn:HM.
  rewrite (auto_zoom_with_artists scale self Ha Hm HM). simpl.
  pose proof (bounding_box _ _ Hm HM) as Hbox.
  set (w := Rmax (Rmax (M0 - m0) (M1 - m1)) (M2 - m2)).
  assert (Hw0 : M0 - m0 <= w).
  { unfold w. eapply Rle_trans; [apply Rmax_l|]. apply Rmax_l. }
  assert (Hw1 : M1 - m1 <= w).
  { unfold w. eapply Rle_trans; [apply Rmax_r|]. apply Rmax_l. }
  assert (Hw2 : M2 - m2 <= w) by (unfold w; apply Rmax_r).
  assert (Hpos : 0 <= M0 - m0).
  { inversion Hbox as [|? ? [Hlo Hhi] _]; subst.
    inversion Hwf as [|? ? Hwa _]; subst.
    destruct (art_min a) as [[p0 p1] p2], (art_max a) as [[q0 q1] q2].
    unfold vle in *. lra. }
  assert (Hsize : w <= scale * w) by nra.
  rewrite Forall_forall in *. intros x Hin.
  destruct (Hbox x Hin) as [Hlo Hhi]. specialize (Hwf x Hin).
  destruct (art_min x) as [[p0 p1] p2], (art_max x) as [[q0 q1] q2].
  unfold within_limits, vle in *. simpl. lra.
Qed.

Lemma auto_zoom_encloses_artists_witness :
  1 <= 1.1
  /\ Forall (fun x => vle (art_min x) (art_max x)) (artists (new_scene [line_L]))
  /\ within_limits (_ax (fst (auto_zoom 1.1 (new_scene [line_L])))) (0, 0, 0) (1, 2, 4).
Proof.
  assert (Hs : 1 <= 1.1) by lra.
  assert (Hwf : Forall (fun x => vle (art_min x) (art_max x))
                  (artists (new_scene [line_L]))).
  { repeat constructor; simpl; lra. }
  split; [exact Hs|]. split; [exact Hwf|].
  pose proof (@auto_zoom_encloses_artists 1.1 (new_scene [line_L]) Hs Hwf) as H.
  inversion H as [|? ? Hx _]. exact Hx.
Defined.

(** X19.  [auto_zoom] writes the limits of the axes only: the children,
    the annotation mode, the calls made on plot objects and the artists
    are as before; and it returns [None] exactly when there is no artist. *)
Theorem auto_zoom_writes_limits_only scale self :
  _children (fst (auto_zoom scale self)) = _children self
  /\ _annot_location (fst (auto_zoom scale self)) = _annot_location self
  /\ called (fst (auto_zoom scale self)) = called self
  /\ artists (fst (auto_zoom scale self)) = artists self
  /\ (snd (auto_zoom scale self) = None <-> artists self = []).
Proof.
  destruct (artists self) as [|a rest] eqn:Ha.
  - unfold auto_zoom. rewrite Ha. simpl. repeat split; auto.
  - destruct (fold_left vmin (map art_min rest) (art_min a))
      as [[m0 m1] m2] eqn:Hm.
    destruct (fold_left vmax (map art_max rest) (art_max a))
      as [[M0 M1] M2] eqn:HM.
    rewrite (auto_zoom_with_artists scale self Ha Hm HM). simpl.
    repeat split; auto; discriminate.
Qed.

End Scene3DZoom.

(** ** [Scene3D], continued: [clear] and the hovering *)

Module Scene3DHover.
Import plot_artists scene.
Local Open Scope R_scope.

Lemma set_all_invisible_done set_visible_raises plot_objects :
  forall log log',
    set_all_invisible set_visible_raises plot_objects log = (log', None) ->
    Forall (fun o => set_visible_raises o = None) plot_objects.
Proof.
  induction plot_objects as [|o r IH]; intros log log' H; simpl in H.
  - constructor.
  - destruct (set_visible_raises o) eqn:Ho; [discriminate|].
    constructor; [exact Ho | eapply IH; exact H].
Qed.

(** X20.  Whatever [set_visible] does on the plot objects, [clear] either
    raises and leaves the list of children as it was, or goes through, and
    then every call of [set_visible(False)] returned, the scene had a first
    child and that child is the only one left.  On a scene without children
    it raises [IndexError] and changes nothing.  The limits of the axes and
    the annotation mode are never changed. *)
Theorem clear_truncates_or_keeps set_visible_raises self :
  (_children self = [] ->
   clear set_visible_raises self = (self, Some IndexError))
  /\ (raised (clear set_visible_raises self) <> None ->
      _children (state_of (clear set_visible_raises self)) = _children self)
  /\ (raised (clear set_visible_raises self) = None ->
      exists first rest,
        _children self = first :: rest
        /\ _children (state_of (clear set_visible_raises self)) = [first]
        /\ Forall (fun o => set_visible_raises o = None) (_children self))
  /\ _ax (state_of (clear set_visible_raises self)) = _ax self
  /\ _annot_location (state_of (clear set_visible_raises self))
     = _annot_location self.
Proof.
  unfold clear. destruct self as [cs loc ax log]. simpl.
  destruct (set_all_invisible set_visible_raises cs log) as [log' [x|]] eqn:Hloop.
  - simpl. split.
    + intros Hcs. subst cs. simpl in Hloop. discriminate.
    + split; [reflexivity|]. split; [discriminate|]. split; reflexivity.
  - pose proof (set_all_invisible_done _ _ _ Hloop) as Hall.
    destruct cs as [|first rest]; simpl.
    + simpl in Hloop. inversion Hloop; subst.
      split; [reflexivity|]. split; [reflexivity|].
      split; [discriminate|]. split; reflexivity.
    + split; [discriminate|]. split; [intros H; contradiction|].
      split; [|split; reflexivity].
      intros _. exists first, rest. repeat split. exact Hall.
Qed.

Lemma clear_truncates_or_keeps_witness :
  raised (clear (fun _ => None) (new_scene [point_P])) = None
  /\ _children (state_of (clear (fun _ => None) (new_scene [point_P])))
     = [inertial_frame_N].
Proof.
  split; [reflexivity|].
  destruct (proj1 (proj2 (proj2 (clear_truncates_or_keeps (fun _ => None)
                                   (new_scene [point_P])))) eq_refl)
    as (first & rest & Hcs & Hafter & _).
  rewrite Hafter. inversion Hcs. reflexivity.
Defined.

Section HoverFacts.
Variable contains : MplPlotBase -> MouseEvent -> bool.
Variable annot_coords : MplPlotBase -> vec3.
Variable proj_transform : vec3 -> R * R.
Variable transData : R * R -> R * R.

Lemma first_containing_some event plot_objects plot_object :
  first_containing contains event plot_objects = Some plot_object <->
  exists before after,
    plot_objects = before ++ plot_object :: after
    /\ contains plot_object event = true
    /\ Forall (fun o => contains o event = false) before.
Proof.
  induction plot_objects as [|o r IH]; simpl.
  - split; [discriminate|].
    intros (before & after & H & _). destruct before; discriminate.
  - destruct (contains o event) eqn:Ho.
    + split.
      * intros H. inversion H; subst.
        exists [], r. repeat split; auto.
      * intros (before & after & H & Hc & Hb).
        destruct before as [|b before]; simpl in H; inversion H; subst.
        -- reflexivity.
        -- inversion Hb; subst. congruence.
    + rewrite IH. split.
      * intros (before & after & H & Hc & Hb).
        exists (o :: before), after. subst. repeat split; auto.
      * intros (before & after & H & Hc & Hb).
        destruct before as [|b before]; simpl in H; inversion H; subst.
        -- congruence.
        -- inversion Hb; subst. exists before, after. repeat split; auto.
Qed.

Lemma first_containing_none event plot_objects :
  first_containing contains event plot_objects = None <->
  Forall (fun o => contains o event = false) plot_objects.
Proof.
  induction plot_objects as [|o r IH]; simpl.
  - split; [constructor | reflexivity].
  - destruct (contains o event) eqn:Ho.
    + split; [discriminate|]. intros H. inversion H; subst. congruence.
    + rewrite IH. split.
      * intros H. constructor; assumption.
      * intros H. inversion H; assumption.
Qed.

(** X21.  [_get_selected_object] returns the first child, in the order of
    the children, that contains the event, whatever lies behind it; and
    [None] exactly when no child contains the event. *)
Theorem selected_object_is_first event self :
  (forall plot_object,
     _get_selected_object contains event self = Some plot_object <->
     exists before after,
       _children self = before ++ plot_object :: after
       /\ contains plot_object event = true
       /\ Forall (fun o => contains o event = false) before)
  /\ (_get_selected_object contains event self = None <->
      Forall (fun o => contains o event = false) (_children self)).
Proof.
  split.
  - intros plot_object. apply first_containing_some.
  - apply first_containing_none.
Qed.

(** X22.  After [_hover] with an event inside the axes, the annotation is
    visible exactly when some child contains the event, and then it shows
    the name of the first such child; the scene itself is not changed. *)
Theorem hover_shows_first_hit event self
  (H : inaxes_is_ax event = true) :
  let after := _hover contains annot_coords proj_transform transData event self in
  the_scene after = the_scene self
  /\ (text_visible (annot after) = true <->
      Exists (fun o => contains o event = true) (_children (the_scene self)))
  /\ (forall plot_object,
        _get_selected_object contains event (the_scene self) = Some plot_object ->
        text (annot after) = po_name plot_object).
Proof.
  unfold _hover. rewrite H.
  destruct (_get_selected_object contains event (the_scene self))
    as [o|] eqn:Hsel.
  - assert (Hex : Exists (fun o => contains o event = true)
                    (_children (the_scene self))).
    { apply first_containing_some in Hsel as (before & after & Hc & Ho & _).
      rewrite Hc. apply Exists_app. right. left. exact Ho. }
    unfold _update_annot.
    destruct (annot_location_is "object" (the_scene self));
      [|destruct (annot_location_is "mouse" (the_scene self))]; simpl;
      (split; [reflexivity|]; split; [tauto|]);
      intros plot_object Heq; inversion Heq; reflexivity.
  - assert (Hno : ~ Exists (fun o => contains o event = true)
                      (_children (the_scene self))).
    { apply first_containing_none in Hsel. rewrite Forall_forall in Hsel.
      intros Hex. apply Exists_exists in Hex as (o & Hin & Ho).
      rewrite (Hsel o Hin) in Ho. discriminate. }
    destruct (text_visible (annot self)) eqn:Hvis; simpl.
    + split; [reflexivity|]. split; [|discriminate].
      split; [discriminate | contradiction].
    + split; [reflexivity|]. split; [|discriminate].
      rewrite Hvis. split; [discriminate | contradiction].
Qed.

(** X23.  [_hover] leaves everything as it was for an event outside the
    axes, and also for an event inside the axes that no child contains
    while the annotation is hidden; in every other case it asks for
    exactly one redraw. *)
Theorem hover_redraws_on_change event self :
  let after := _hover contains annot_coords proj_transform transData event self in
  ((inaxes_is_ax event = false
    \/ (_get_selected_object contains event (the_scene self) = None
        /\ text_visible (annot self) = false)) ->
   after = self)
  /\ (inaxes_is_ax event = true ->
      (_get_selected_object contains event (the_scene self) <> None
       \/ text_visible (annot self) = true) ->
      draw_idle_requests after = S (draw_idle_requests self)).
Proof.
  unfold _hover. split.
  - intros [Hout|[Hsel Hvis]].
    + rewrite Hout. reflexivity.
    + rewrite Hsel, Hvis. destruct (inaxes_is_ax event); reflexivity.
  - intros Hin Hch. rewrite Hin.
    destruct (_get_selected_object contains event (the_scene self)) as [o|].
    + unfold _update_annot.
      destruct (annot_location_is "object" (the_scene self));
        [|destruct (annot_location_is "mouse" (the_scene self))]; reflexivity.
    + destruct Hch as [Hch|Hvis]; [contradiction|].
      rewrite Hvis. reflexivity.
Qed.
End HoverFacts.

Lemma hover_shows_first_hit_witness :
  inaxes_is_ax (mkMouseEvent true 0 0) = true
  /\ text (annot (_hover (fun o _ => String.eqb (po_name o) "P")
                    (fun _ => (0, 0, 0)) (fun _ => (0, 0)) (fun xy => xy)
                    (mkMouseEvent true 0 0)
                    (mkHovered (new_scene [point_P]) (mkText "" (0, 0) false) 0)))
     = "P"%string.
Proof.
  split; [reflexivity|].
  exact (proj2 (proj2 (@hover_shows_first_hit
                         (fun o _ => String.eqb (po_name o) "P")
                         (fun _ => (0, 0, 0)) (fun _ => (0, 0)) (fun xy => xy)
                         (mkMouseEvent true 0 0)
                         (mkHovered (new_scene [point_P])
                            (mkText "" (0, 0) false) 0)
                         eq_refl)) point_P eq_refl).
Defined.

Lemma hover_redraws_on_change_witness :
  inaxes_is_ax (mkMouseEvent false 0 0) = false
  /\ _hover (fun o _ => String.eqb (po_name o) "P")
       (fun _ => (0, 0, 0)) (fun _ => (0, 0)) (fun xy => xy)
       (mkMouseEvent false 0 0)
       (mkHovered (new_scene [point_P]) (mkText "" (0, 0) true) 0)
     = mkHovered (new_scene [point_P]) (mkText "" (0, 0) true) 0.
Proof.
  split; [reflexivity|].
  exact (proj1 (@hover_redraws_on_change
                  (fun o _ => String.eqb (po_name o) "P")
                  (fun _ => (0, 0, 0)) (fun _ => (0, 0)) (fun xy => xy)
                  (mkMouseEvent false 0 0)
                  (mkHovered (new_scene [point_P]) (mkText "" (0, 0) true) 0))
           (or_introl eq_refl)).
Defined.

End Scene3DHover.
